(** * proxy_bench: the benchmark script [main.py]

    A shallow embedding of [main.py] and the properties of its stream
    server, process runner and benchmark loop.

    The script is sequential code over an outside world (sockets, child
    processes, external tools).  Calls into that world are modelled by an
    oracle that fixes, per call, whether the call returns or raises; what
    the script does to the world is recorded as a trace of events.  A
    computation is therefore a pair of a trace and a result, the result
    being a returned value or a raised Python exception. *)

From Stdlib Require Import ZArith List String Ascii Bool Lia Floats Sorted.
From Stdlib Require Import DecimalString.
From Equations Require Import Equations.
Import ListNotations.

Set Warnings "-inexact-float,-register-all".

Open Scope string_scope.
Open Scope list_scope.
Open Scope Z_scope.

(** ** Python values used by the script *)

(** The exception classes the script's calls raise or name.  The last two
    derive from [BaseException] only. *)
Inductive exn : Type :=
| BrokenPipeError
| ConnectionResetError
| FileNotFoundError
| PermissionError
| ProcessLookupError
| OSError (msg : string)
| CalledProcessError (returncode : Z) (output : string)
| TimeoutExpired (output : string)
| ValueError (msg : string)
| RuntimeError (msg : string)
| KeyboardInterrupt
| SystemExit.

(** [isinstance(e, Exception)] *)
Definition is_Exception (e : exn) : bool :=
  match e with
  | KeyboardInterrupt | SystemExit => false
  | _ => true
  end.

(** [isinstance(e, OSError)]; [BrokenPipeError] and [ConnectionResetError]
    are subclasses of it. *)
Definition is_OSError (e : exn) : bool :=
  match e with
  | BrokenPipeError | ConnectionResetError | FileNotFoundError
  | PermissionError | ProcessLookupError | OSError _ => true
  | _ => false
  end.

(** [hasattr(e, "output")] together with the attribute's value. *)
Definition exn_output (e : exn) : option string :=
  match e with
  | CalledProcessError _ out => Some out
  | TimeoutExpired out => Some out
  | _ => None
  end.

(** JSON-serialisable objects (dicts keep insertion order). *)
Inductive json : Type :=
| JStr (s : string)
| JInt (n : Z)
| JBool (b : bool)
| JList (items : list json)
| JObj (fields : list (string * json)).

(** ** Strings *)

Definition nl : string := String (ascii_of_nat 10) "".

(** [str(n)] for an integer. *)
Definition str (n : Z) : string := NilZero.string_of_int (Z.to_int n).

(** [needle in hay] on strings. *)
Fixpoint str_in (needle hay : string) : bool :=
  String.prefix needle hay ||
  match hay with
  | EmptyString => false
  | String _ rest => str_in needle rest
  end.

(** Whitespace removed by [str.strip()], for ASCII text. *)
Definition is_space (a : ascii) : bool :=
  let n := nat_of_ascii a in
  ((9 <=? n) && (n <=? 13) || (28 <=? n) && (n <=? 32))%nat.

Fixpoint lstrip (s : string) : string :=
  match s with
  | String a rest => if is_space a then lstrip rest else s
  | EmptyString => EmptyString
  end.

Definition rev_string (s : string) : string :=
  string_of_list_ascii (rev (list_ascii_of_string s)).

Definition strip (s : string) : string :=
  rev_string (lstrip (rev_string (lstrip s))).

Definition ends_with_slash (s : string) : bool :=
  match rev_string s with
  | String a _ => Ascii.eqb a "/"
  | EmptyString => false
  end.

(** [os.path.join(a, b)] on POSIX. *)
Definition path_join (a b : string) : string :=
  if String.prefix "/" b then b
  else if String.eqb a "" || ends_with_slash a then (a ++ b)%string
  else (a ++ "/" ++ b)%string.

(** ** Effects: traces and exceptions *)

Inductive event : Type :=
| Print (line : string)
| PrintExn (label : string) (e : exn)
| PrintSpeed (speed_mib gbps : float)
| SummaryRow (method : string) (speed gbps : float)
| Sleep (ms : Z)
| Exec (argv : list string)
| WriteFile (path : string) (doc : json)
| GenConfig (method : string) (server_port client_port : Z)
| Spawn (argv : list string)
| Poll (pid : Z)
| ReadStderr (pid : Z)
| Terminate (pid : Z)
| Wait (pid : Z) (timeout : Z)
| Kill (pid : Z)
| HttpdStart (port : Z)
| HttpdShutdown
| HttpdClose
| SendError (code : Z)
| SendResponse (code : Z)
| SendHeader (key value : string)
| EndHeaders
| WfileWrite (len sent : Z)
| Flush.

Inductive res (A : Type) : Type :=
| Ret (a : A)
| Raise (e : exn).
Arguments Ret {A} a.
Arguments Raise {A} e.

Definition M (A : Type) : Type := (list event * res A)%type.

Definition ret {A} (a : A) : M A := ([], Ret a).
Definition raise {A} (e : exn) : M A := ([], Raise e).
Definition emit (ev : event) : M unit := ([ev], Ret tt).
Definition lift {A} (r : res A) : M A := ([], r).

Definition bind {A B} (m : M A) (k : A -> M B) : M B :=
  match m with
  | (t, Ret a) => let (t', r) := k a in (t ++ t', r)
  | (t, Raise e) => (t, Raise e)
  end.

Declare Scope py_scope.
Delimit Scope py_scope with py.
Notation "x <- m ;; k" := (bind m (fun x => k))
  (at level 61, m at next level, right associativity) : py_scope.
Notation "m ;; k" := (bind m (fun _ => k))
  (at level 61, right associativity) : py_scope.
Open Scope py_scope.

(** An external call whose only outcome is to return or to raise. *)
Definition call (outcome : option exn) : M unit :=
  match outcome with
  | None => ret tt
  | Some e => raise e
  end.

(** [try: body except <classes>: handler]; [handler e] is [None] when no
    clause matches [e]. *)
Definition try_except {A} (body : M A) (handler : exn -> option (M A)) : M A :=
  match body with
  | (t, Raise e) =>
      match handler e with
      | Some h => let (t', r) := h in (t ++ t', r)
      | None => (t, Raise e)
      end
  | _ => body
  end.

(** [try: body finally: fin]: [fin] always runs; an exception of [fin]
    replaces the outcome of [body]. *)
Definition try_finally {A} (body : M A) (fin : M unit) : M A :=
  let (t, r) := body in
  match fin with
  | (t', Ret _) => (t ++ t', r)
  | (t', Raise e') => (t ++ t', Raise e')
  end.

(** [except Exception: handler] *)
Definition except_Exception {A} (h : exn -> M A) (e : exn) : option (M A) :=
  if is_Exception e then Some (h e) else None.

Definition trace {A} (m : M A) : list event := fst m.
Definition result {A} (m : M A) : res A := snd m.

(** ** Constants of the script *)

Definition SINGBOX : string := "/usr/bin/sing-box".
Definition OPENSSL : string := "/usr/bin/openssl".
Definition CURL : string := "/usr/bin/curl".

Definition BASE_CLIENT_PORT : Z := 15000.
Definition BASE_SERVER_PORT : Z := 20000.
Definition HTTP_SERVER_PORT : Z := 8000.
Definition DURATION : Z := 12.
Definition MAX_TEST_BYTES : Z := Z.shiftl 8 30.

(** ** HTTP stream server *)

(** What the client connection does to the handler's writes.  A failing
    [wfile.write] may have put part of the chunk on the wire.  The event
    [WfileWrite len sent] is a call of [wfile.write] with [len] bytes of
    which [sent] went out. *)
Record conn : Type := {
  on_send_error : option exn;
  on_end_headers : option exn;
  on_write : nat -> option (exn * Z);
  on_flush : nat -> option exn
}.

(** [len(chunk)] for [chunk = b"\0" * (1024 * 1024) * 1] *)
Definition chunk_len : Z := (1024 * 1024) * 1.

Definition clamp (lo hi x : Z) : Z := Z.max lo (Z.min hi x).

Arguments chunk_len : simpl never.
Arguments MAX_TEST_BYTES : simpl never.

(** [self.wfile.write(chunk)], the [i]-th of the request. *)
Definition wfile_write (c : conn) (i : nat) (len : Z) : M unit :=
  match on_write c i with
  | None => emit (WfileWrite len len)
  | Some (e, part) => emit (WfileWrite len (clamp 0 len part)) ;; raise e
  end.

Definition wfile_flush (c : conn) (i : nat) : M unit :=
  emit Flush ;; call (on_flush c i).

(** Number of loop turns left, the termination measure of the loop. *)
Definition turns_left (ceiling sent : Z) : nat :=
  Z.to_nat ((ceiling - sent + chunk_len - 1) / chunk_len).

(** [while sent < MAX_TEST_BYTES: write; flush; sent += len(chunk)] *)
Equations? stream_loop (ceiling : Z) (c : conn) (i : nat) (sent : Z) : M unit
  by wf (turns_left ceiling sent) lt :=
  stream_loop ceiling c i sent with Z_lt_dec sent ceiling => {
    | left _ =>
        wfile_write c i chunk_len ;;
        wfile_flush c i ;;
        stream_loop ceiling c (S i) (sent + chunk_len)
    | right _ => ret tt
  }.
Proof.
  unfold turns_left, chunk_len in *.
  apply Z2Nat.inj_lt.
  - apply Z.div_pos; lia.
  - apply Z.div_pos; lia.
  - replace (ceiling - sent + 1024 * 1024 * 1 - 1)
      with ((ceiling - (sent + 1024 * 1024 * 1) + 1024 * 1024 * 1 - 1)
            + 1 * (1024 * 1024 * 1)) by lia.
    rewrite Z.div_add by lia. lia.
Qed.

(** [InfiniteHandler.do_GET] *)
Definition do_GET_with (ceiling : Z) (c : conn) (path : string) : M unit :=
  if negb (String.eqb path "/bench") then
    emit (SendError 404) ;; call (on_send_error c)
  else
    emit (SendResponse 200) ;;
    emit (SendHeader "Content-Type" "application/octet-stream") ;;
    emit EndHeaders ;; call (on_end_headers c) ;;
    try_except (stream_loop ceiling c 0%nat 0)
      (fun e =>
         if is_OSError e then Some (ret tt)
         else if is_Exception e then Some (emit (PrintExn "HTTP stream error:" e))
         else None).

Definition do_GET : conn -> string -> M unit := do_GET_with MAX_TEST_BYTES.

(** ** Process runner *)

(** A child process as [subprocess.Popen] shows it to the script: what
    [poll()] sees after the settle sleep, and how the stop calls end. *)
Record popen : Type := {
  pid : Z;
  poll_result : option Z;
  stderr_text : string;
  on_terminate : option exn;
  on_wait : option exn;
  on_kill : option exn
}.

Definition p_terminate (p : popen) : M unit :=
  emit (Terminate (pid p)) ;; call (on_terminate p).

Definition p_wait (p : popen) (timeout : Z) : M unit :=
  emit (Wait (pid p) timeout) ;; call (on_wait p).

Definition p_kill (p : popen) : M unit :=
  emit (Kill (pid p)) ;; call (on_kill p).

(** [start_singbox(cfg_path, name)]; [spawned] is the outcome of
    [subprocess.Popen]. *)
Definition start_singbox (spawned : res popen) (cfg_path name : string)
  : M (option popen) :=
  emit (Spawn [SINGBOX; "run"; "-c"; cfg_path]) ;;
  p <- lift spawned ;;
  emit (Sleep 800) ;;
  emit (Poll (pid p)) ;;
  match poll_result p with
  | Some _ =>
      emit (ReadStderr (pid p)) ;;
      emit (Print (name ++ " sing-box 启动失败:" ++ nl ++ stderr_text p)) ;;
      ret None
  | None => ret (Some p)
  end.

(** [terminate_process(p)] *)
Definition terminate_process (p : option popen) : M unit :=
  match p with
  | None => ret tt
  | Some p =>
      try_finally
        (try_except (p_terminate p ;; p_wait p 4)
                    (except_Exception (fun _ => ret tt)))
        (try_except (p_kill p)
                    (except_Exception (fun _ => ret tt)))
  end.

(** ** Helpers *)

(** [gen_password(bits)]; [tool] is the outcome of running openssl. *)
Definition gen_password (tool : res string) (bits : Z) : M string :=
  let byte_len := bits / 8 in
  let cmd := [OPENSSL; "rand"; "-base64"; str byte_len] in
  emit (Exec cmd) ;;
  out <- lift tool ;;
  ret (strip out).

(** [get_pwd_for_method(method)] *)
Definition get_pwd_for_method (tool : res string) (method : string) : M string :=
  if str_in "128" method then gen_password tool 128
  else gen_password tool 256.

(** [write_cfg(obj, path)] *)
Definition write_cfg (outcome : option exn) (obj : json) (path : string) : M unit :=
  emit (WriteFile path obj) ;; call outcome.

(** [gen_ss_config(method, password, server_port, client_port)] *)
Definition gen_ss_config (method password : string) (server_port client_port : Z)
  : json * json :=
  let server := JObj [
    ("log", JObj [("level", JStr "error"); ("timestamp", JBool false)]);
    ("inbounds", JList [
       JObj [("type", JStr "shadowsocks");
             ("tag", JStr "ss-in");
             ("listen", JStr "127.0.0.1");
             ("listen_port", JInt server_port);
             ("method", JStr method);
             ("password", JStr password)]]);
    ("outbounds", JList [JObj [("type", JStr "direct"); ("tag", JStr "direct")]])
  ] in
  let client := JObj [
    ("log", JObj [("level", JStr "error"); ("timestamp", JBool false)]);
    ("inbounds", JList [
       JObj [("type", JStr "socks");
             ("tag", JStr "socks-in");
             ("listen", JStr "127.0.0.1");
             ("listen_port", JInt client_port)]]);
    ("outbounds", JList [
       JObj [("type", JStr "shadowsocks");
             ("tag", JStr "ss-out");
             ("server", JStr "127.0.0.1");
             ("server_port", JInt server_port);
             ("method", JStr method);
             ("password", JStr password)];
       JObj [("type", JStr "direct"); ("tag", JStr "direct")]]);
    ("route", JObj [("rules", JList [JObj [("outbound", JStr "ss-out")]])])
  ] in
  (server, client).

(** The builtin [float] on unsigned decimal integers below 2^53, which
    it converts exactly; the sample worlds below are run with it. *)
Fixpoint digits_value (acc : Z) (s : string) : option Z :=
  match s with
  | EmptyString => Some acc
  | String a rest =>
      let n := Z.of_nat (nat_of_ascii a) in
      if (48 <=? n) && (n <=? 57) then digits_value (10 * acc + (n - 48)) rest
      else None
  end.

Definition float_of_digits (s : string) : option float :=
  match s with
  | EmptyString => None
  | _ =>
      match digits_value 0 s with
      | Some n =>
          if n <? 2 ^ 53 then Some (PrimFloat.of_uint63 (Uint63.of_Z n)) else None
      | None => None
      end
  end.

(** ** Benchmark *)

(** What the outside world does during one turn of the benchmark loop. *)
Record iter_world : Type := {
  openssl_out : res string;
  write_server : option exn;
  write_client : option exn;
  server_popen : res popen;
  client_popen : res popen;
  curl_out : res string
}.

Record world : Type := {
  httpd_bind : option exn;
  turn : nat -> iter_world
}.

(** The loop's variables [results], [sp] and [cp]. *)
Record bench_state : Type := {
  results : list (string * option float);
  sp : Z;
  cp : Z
}.

Definition ljust (s : string) (width : nat) : string :=
  (s ++ string_of_list_ascii (repeat " "%char (width - String.length s)))%string.

Definition rule (a : ascii) (n : nat) : string :=
  string_of_list_ascii (repeat a n).

Section Script.

(** The builtin [float] on strings ([None]: it raises [ValueError]) and
    the directory made by [tempfile.mkdtemp] when the module is loaded. *)
Variable py_float : string -> option float.
Variable WORKDIR : string.

(** [run_curl(client_port)]; [tool] is the outcome of running curl. *)
Definition run_curl (tool : res string) (client_port : Z) : M (option float) :=
  let cmd := [
    CURL;
    "--silent";
    "--show-error";
    "-o";
    "/dev/null";
    "-x";
    ("socks5h://127.0.0.1:" ++ str client_port)%string;
    "--max-time";
    str (DURATION + 2);
    ("http://127.0.0.1:" ++ str HTTP_SERVER_PORT ++ "/bench")%string;
    "-w";
    "%{speed_download}\n"
  ] in
  try_except
    (emit (Exec cmd) ;;
     raw <- lift tool ;;
     let out := strip raw in
     match py_float out with
     | Some speed_bps => ret (Some (speed_bps / (1024 * 1024))%float)
     | None => raise (ValueError out)
     end)
    (except_Exception (fun e =>
       emit (PrintExn "curl failed:" e) ;;
       match exn_output e with
       | Some o => emit (Print o)
       | None => ret tt
       end ;;
       ret None)).

(** [results.append((method, speed))] *)
Definition append_result (st : bench_state) (method : string)
  (speed : option float) : bench_state :=
  {| results := results st ++ [(method, speed)]; sp := sp st; cp := cp st |}.

(** [sp += k; cp += k] *)
Definition advance (st : bench_state) (k : Z) : bench_state :=
  {| results := results st; sp := sp st + k; cp := cp st + k |}.

(** One turn of [for (method,) in tests] in [main].  The event
    [GenConfig method sp cp] marks the call of [gen_ss_config] and the
    port pair it is given. *)
Definition iteration (w : iter_world) (method : string) (st : bench_state)
  : M bench_state :=
  emit (Print (nl ++ "=== " ++ method ++ " ===")) ;;
  password <- get_pwd_for_method (openssl_out w) method ;;
  let (server_cfg, client_cfg) := gen_ss_config method password (sp st) (cp st) in
  emit (GenConfig method (sp st) (cp st)) ;;
  let s_path := path_join WORKDIR ("server-" ++ method ++ ".json") in
  let c_path := path_join WORKDIR ("client-" ++ method ++ ".json") in
  write_cfg (write_server w) server_cfg s_path ;;
  write_cfg (write_client w) client_cfg c_path ;;
  srv <- start_singbox (server_popen w) s_path "server" ;;
  match srv with
  | None => ret (advance (append_result st method None) 1)
  | Some _ =>
      cli <- start_singbox (client_popen w) c_path "client" ;;
      match cli with
      | None =>
          terminate_process srv ;;
          ret (advance (append_result st method None) 1)
      | Some _ =>
          emit (Sleep 1200) ;;
          speed_mib <- run_curl (curl_out w) (cp st) ;;
          st1 <- match speed_mib with
                 | Some v =>
                     let gbps := (v * 8 / 1000)%float in
                     emit (PrintSpeed v gbps) ;;
                     ret (append_result st method (Some v))
                 | None =>
                     emit (Print "  FAILED") ;;
                     ret (append_result st method None)
                 end ;;
          terminate_process cli ;;
          terminate_process srv ;;
          emit (Sleep 400) ;;
          ret (advance st1 2)
      end
  end.

(** The [for] loop of [main]; [i] counts the turns. *)
Fixpoint bench_loop (w : nat -> iter_world) (i : nat) (tests : list string)
  (st : bench_state) : M bench_state :=
  match tests with
  | [] => ret st
  | method :: rest =>
      st' <- iteration (w i) method st ;;
      bench_loop w (S i) rest st'
  end.

Definition tests : list string := [
  "none";
  "aes-128-gcm";
  "aes-256-gcm";
  "chacha20-ietf-poly1305";
  "2022-blake3-aes-128-gcm";
  "2022-blake3-aes-256-gcm"
].

Definition start_state : bench_state :=
  {| results := []; sp := BASE_SERVER_PORT; cp := BASE_CLIENT_PORT |}.

(** [start_http_server()] *)
Definition start_http_server (w : world) : M unit :=
  emit (HttpdStart HTTP_SERVER_PORT) ;;
  call (httpd_bind w) ;;
  emit (Sleep 600).

(** The summary loop at the end of [main]. *)
Fixpoint summary (rows : list (string * option float)) : M unit :=
  match rows with
  | [] => ret tt
  | (method, speed) :: rest =>
      match speed with
      | Some v =>
          let gbps := (v * 8 / 1000)%float in
          emit (SummaryRow method v gbps)
      | None => emit (Print (ljust method 32 ++ " FAILED"))
      end ;;
      summary rest
  end.

(** [main()]; the value returned is the local [results], for the
    statements below. *)
Definition main (w : world) : M (list (string * option float)) :=
  start_http_server w ;;
  st <- bench_loop (turn w) 0 tests start_state ;;
  emit HttpdShutdown ;;
  emit HttpdClose ;;
  emit (Print (nl ++ rule "=" 40)) ;;
  emit (Print "           SUMMARY") ;;
  emit (Print (rule "-" 40)) ;;
  summary (results st) ;;
  emit (Print (rule "-" 40)) ;;
  ret (results st).


(** ** Observations on traces *)

(** Bytes handed to [wfile.write], and bytes that went out. *)
Fixpoint offered (t : list event) : Z :=
  match t with
  | [] => 0
  | WfileWrite len _ :: rest => len + offered rest
  | _ :: rest => offered rest
  end.

Fixpoint delivered (t : list event) : Z :=
  match t with
  | [] => 0
  | WfileWrite _ sent :: rest => sent + delivered rest
  | _ :: rest => delivered rest
  end.

(** The events of the payload phase: writes of one 1 MiB chunk, flushes,
    and the report of an unexpected exception. *)
Definition stream_event (ev : event) : Prop :=
  match ev with
  | WfileWrite len sent => len = 1048576 /\ 0 <= sent <= len
  | Flush => True
  | PrintExn _ _ => True
  | _ => False
  end.

Definition open_connection (c : conn) : Prop :=
  on_end_headers c = None /\
  forall i, on_write c i = None /\ on_flush c i = None.

Definition quiet : conn :=
  {| on_send_error := None; on_end_headers := None;
     on_write := fun _ => None; on_flush := fun _ => None |}.

(** ** Observations on the benchmark *)

Definition collect {A} (f : event -> option A) (t : list event) : list A :=
  flat_map (fun ev => match f ev with Some a => [a] | None => [] end) t.

(** The port pairs given to [gen_ss_config], in order. *)
Definition port_pairs : list event -> list (Z * Z) :=
  collect (fun ev => match ev with GenConfig _ s c => Some (s, c) | _ => None end).

(** The command lines given to [subprocess.Popen], in order. *)
Definition spawns : list event -> list (list string) :=
  collect (fun ev => match ev with Spawn argv => Some argv | _ => None end).

(** The processes on which [terminate()] was called, in order. *)
Definition terminated : list event -> list Z :=
  collect (fun ev => match ev with Terminate p => Some p | _ => None end).

(** The processes on which [kill()] was called, in order. *)
Definition killed : list event -> list Z :=
  collect (fun ev => match ev with Kill p => Some p | _ => None end).

Definition port_lt (a b : Z * Z) : Prop := fst a < fst b /\ snd a < snd b.

(** [needle] occurs in [hay]. *)
Definition Substring (needle hay : string) : Prop :=
  exists pre post, hay = (pre ++ needle ++ post)%string.

(** An outcome that [except Exception] absorbs. *)
Definition swallowed (o : option exn) : bool :=
  match o with
  | None => true
  | Some e => is_Exception e
  end.

(** The stop calls made on the process raise nothing but errors
    ([wait] is only called when [terminate] returned). *)
Definition tidy (p : popen) : bool :=
  match on_terminate p with
  | None => swallowed (on_wait p)
  | Some e => is_Exception e
  end && swallowed (on_kill p).

Definition started (spawned : res popen) : bool :=
  match spawned with
  | Ret p => match poll_result p with None => true | Some _ => false end
  | Raise _ => false
  end.

(** Both tunnel processes are up after their settle windows. *)
Definition both_started (w : iter_world) : bool :=
  started (server_popen w) && started (client_popen w).

(** The turn meets no exception other than those the script absorbs:
    the tools before the processes return, [Popen] returns, and what
    [run_curl] and [terminate_process] meet are errors. *)
Definition survives (w : iter_world) : bool :=
  match openssl_out w, write_server w, write_client w, server_popen w with
  | Ret _, None, None, Ret ps =>
      match poll_result ps with
      | Some _ => true
      | None =>
          match client_popen w with
          | Raise _ => false
          | Ret pc =>
              tidy ps &&
              match poll_result pc with
              | Some _ => true
              | None =>
                  tidy pc &&
                  match curl_out w with
                  | Ret _ => true
                  | Raise e => is_Exception e
                  end
              end
          end
      end
  | _, _, _, _ => false
  end.

(** The measurement fails: the tool raises an error, or its output is
    not a number. *)
Definition measurement_fails (tool : res string) : Prop :=
  match tool with
  | Ret raw => py_float (strip raw) = None
  | Raise e => is_Exception e = true
  end.

(** The speed [run_curl] returns when it returns. *)
Definition measured (tool : res string) : option float :=
  match tool with
  | Ret raw =>
      match py_float (strip raw) with
      | Some speed_bps => Some (speed_bps / (1024 * 1024))%float
      | None => None
      end
  | Raise _ => None
  end.

(** The speed recorded for a turn that completes. *)
Definition turn_speed (w : iter_world) : option float :=
  if both_started w then measured (curl_out w) else None.

Fixpoint expected_results (w : nat -> iter_world) (i : nat) (methods : list string)
  : list (string * option float) :=
  match methods with
  | [] => []
  | method :: rest => (method, turn_speed (w i)) :: expected_results w (S i) rest
  end.

(** ** Sample worlds *)

Definition sample_dir : string := "/tmp/sb-bench-x".

Definition graceful (n : Z) : popen :=
  {| pid := n; poll_result := None; stderr_text := "";
     on_terminate := None; on_wait := None; on_kill := None |}.

Definition exited (n : Z) : popen :=
  {| pid := n; poll_result := Some 1; stderr_text := "FATAL";
     on_terminate := None; on_wait := None; on_kill := None |}.

Definition stubborn (n : Z) : popen :=
  {| pid := n; poll_result := None; stderr_text := "";
     on_terminate := None; on_wait := Some (TimeoutExpired "");
     on_kill := Some ProcessLookupError |}.

Definition interrupted (n : Z) : popen :=
  {| pid := n; poll_result := None; stderr_text := "";
     on_terminate := Some KeyboardInterrupt; on_wait := None; on_kill := None |}.

Definition fine_turn : iter_world :=
  {| openssl_out := Ret ("c2VjcmV0" ++ nl)%string;
     write_server := None; write_client := None;
     server_popen := Ret (graceful 101); client_popen := Ret (graceful 102);
     curl_out := Ret ("12500000" ++ nl)%string |}.

Definition server_fails : iter_world :=
  {| openssl_out := Ret ("c2VjcmV0" ++ nl)%string;
     write_server := None; write_client := None;
     server_popen := Ret (exited 101); client_popen := Ret (graceful 102);
     curl_out := Ret ("12500000" ++ nl)%string |}.

Definition client_fails : iter_world :=
  {| openssl_out := Ret ("c2VjcmV0" ++ nl)%string;
     write_server := None; write_client := None;
     server_popen := Ret (stubborn 101); client_popen := Ret (exited 102);
     curl_out := Ret ("12500000" ++ nl)%string |}.

Definition curl_garbled : iter_world :=
  {| openssl_out := Ret ("c2VjcmV0" ++ nl)%string;
     write_server := None; write_client := None;
     server_popen := Ret (graceful 101); client_popen := Ret (stubborn 102);
     curl_out := Ret "curl: (7) Failed to connect" |}.

Definition curl_times_out : iter_world :=
  {| openssl_out := Ret ("c2VjcmV0" ++ nl)%string;
     write_server := None; write_client := None;
     server_popen := Ret (graceful 101); client_popen := Ret (graceful 102);
     curl_out := Raise (CalledProcessError 28 "curl: (28) Operation timed out") |}.

(** A run in which the second method's server, the third method's client
    and the fourth and fifth methods' transfers fail. *)
Definition rough_run : world :=
  {| httpd_bind := None;
     turn := fun i =>
       match i with
       | 1%nat => server_fails
       | 2%nat => client_fails
       | 3%nat => curl_garbled
       | 4%nat => curl_times_out
       | _ => fine_turn
       end |}.

(** ** Further observations *)

(** The calls of [wfile.write], in order. *)
Definition write_calls : list event -> list (Z * Z) :=
  collect (fun ev => match ev with WfileWrite len sent => Some (len, sent) | _ => None end).

(** The exceptions reported by [print]. *)
Definition reported : list event -> list (string * exn) :=
  collect (fun ev => match ev with PrintExn label e => Some (label, e) | _ => None end).

(** The command lines run with [subprocess.check_output], in order. *)
Definition execs : list event -> list (list string) :=
  collect (fun ev => match ev with Exec argv => Some argv | _ => None end).

(** The files written by [write_cfg], in order. *)
Definition files_written : list event -> list (string * json) :=
  collect (fun ev => match ev with WriteFile path doc => Some (path, doc) | _ => None end).

(** The methods for which [gen_ss_config] was called, in order. *)
Definition configured : list event -> list string :=
  collect (fun ev => match ev with GenConfig method _ _ => Some method | _ => None end).

(** What happens to the stream server. *)
Definition httpd_events : list event -> list event :=
  collect (fun ev =>
             match ev with
             | HttpdStart _ | HttpdShutdown | HttpdClose => Some ev
             | _ => None
             end).

(** Access into a JSON object: [obj[key]] and [lst[n]]. *)
Inductive step : Type :=
| Key (k : string)
| Idx (n : nat).

Fixpoint assoc (k : string) (fields : list (string * json)) : option json :=
  match fields with
  | [] => None
  | (k', v) :: rest => if String.eqb k k' then Some v else assoc k rest
  end.

Fixpoint jat (path : list step) (j : json) : option json :=
  match path with
  | [] => Some j
  | Key k :: rest =>
      match j with
      | JObj fields =>
          match assoc k fields with
          | Some v => jat rest v
          | None => None
          end
      | _ => None
      end
  | Idx n :: rest =>
      match j with
      | JList items =>
          match nth_error items n with
          | Some v => jat rest v
          | None => None
          end
      | _ => None
      end
  end.

Definition starts_with_space (s : string) : bool :=
  match s with
  | String a _ => is_space a
  | EmptyString => false
  end.

Definition ends_with_space (s : string) : bool :=
  starts_with_space (rev_string s).

(** The command line of [run_curl]. *)
Definition curl_argv (client_port : Z) : list string :=
  [CURL; "--silent"; "--show-error"; "-o"; "/dev/null"; "-x";
   ("socks5h://127.0.0.1:" ++ str client_port)%string;
   "--max-time"; "14"; "http://127.0.0.1:8000/bench";
   "-w"; "%{speed_download}\n"].

(** The command line of [gen_password] for a method. *)
Definition openssl_argv (method : string) : list string :=
  [OPENSSL; "rand"; "-base64"; if str_in "128" method then "16" else "32"].

Definition singbox_argv (kind method : string) : list string :=
  [SINGBOX; "run"; "-c"; path_join WORKDIR (kind ++ "-" ++ method ++ ".json")].

(** The amount by which a completed turn advances the port counters. *)
Definition stride (w : iter_world) : Z :=
  if both_started w then 2 else 1.

Fixpoint strides (w : nat -> iter_world) (i : nat) (n : nat) : Z :=
  match n with
  | O => 0
  | S n' => stride (w i) + strides w (S i) n'
  end.

(** The line of the summary for one result. *)
Definition report_line (row : string * option float) : event :=
  match row with
  | (method, Some v) => SummaryRow method v (v * 8 / 1000)%float
  | (method, None) => Print (ljust method 32 ++ " FAILED")
  end.

(** The events of the write loop. *)
Definition wire_event (ev : event) : Prop :=
  match ev with
  | WfileWrite _ _ | Flush => True
  | _ => False
  end.

(** A run whose stream server cannot bind its port. *)
Definition port_taken : world :=
  {| httpd_bind := Some (OSError "[Errno 98] Address already in use");
     turn := fun _ => fine_turn |}.

(** A connection that breaks at its [k]-th write or flush. *)
Definition breaks_at (k : nat) (e : exn) (part : Z) : conn :=
  {| on_send_error := None; on_end_headers := None;
     on_write := fun i => if Nat.eqb i k then Some (e, part) else None;
     on_flush := fun _ => None |}.

Definition popen_missing : iter_world :=
  {| openssl_out := Ret ("c2VjcmV0" ++ nl)%string;
     write_server := None; write_client := None;
     server_popen := Ret (graceful 101);
     client_popen := Raise FileNotFoundError;
     curl_out := Ret ("12500000" ++ nl)%string |}.

Definition openssl_missing : iter_world :=
  {| openssl_out := Raise FileNotFoundError;
     write_server := None; write_client := None;
     server_popen := Ret (graceful 101); client_popen := Ret (graceful 102);
     curl_out := Ret ("12500000" ++ nl)%string |}.

(** A run that stops at its third method. *)
Definition broken_run : world :=
  {| httpd_bind := None;
     turn := fun i =>
       match i with
       | 1%nat => client_fails
       | 2%nat => openssl_missing
       | _ => fine_turn
       end |}.

(** ** [subprocess.Popen] below its methods

    What the calls [terminate()], [wait(timeout)] and [kill()] of the
    stop operation do to the child process, after CPython's
    [subprocess.py] on POSIX: [terminate] and [kill] are [send_signal]
    with SIGTERM and SIGKILL; [send_signal] polls the child first and
    does nothing once its return code is known, and ignores
    [ProcessLookupError] of [os.kill]; [wait] returns at once when the
    return code is known and raises [TimeoutExpired] when the child has
    not exited by the end of the timeout. *)



























(** * Properties *)

(** ** Traces and results of composed computations *)

Lemma trace_bind {A B} (m : M A) (k : A -> M B) :
  trace (bind m k) =
  trace m ++ match result m with Ret a => trace (k a) | Raise _ => [] end.
Proof.
  destruct m as [t [a | e]]; simpl.
  - destruct (k a); reflexivity.
  - now rewrite app_nil_r.
Qed.

Lemma result_bind {A B} (m : M A) (k : A -> M B) :
  result (bind m k) =
  match result m with Ret a => result (k a) | Raise e => Raise e end.
Proof.
  destruct m as [t [a | e]]; simpl; [destruct (k a) |]; reflexivity.
Qed.

Lemma offered_app (t u : list event) : offered (t ++ u) = offered t + offered u.
Proof.
  induction t as [| ev t IH]; simpl; [reflexivity |].
  destruct ev; rewrite ?IH; lia.
Qed.

Lemma delivered_app (t u : list event) :
  delivered (t ++ u) = delivered t + delivered u.
Proof.
  induction t as [| ev t IH]; simpl; [reflexivity |].
  destruct ev; rewrite ?IH; lia.
Qed.

(** ** Stream server *)

Lemma wfile_write_chunk (c : conn) (i : nat) :
  let t := trace (wfile_write c i chunk_len) in
  Forall stream_event t /\ offered t = chunk_len /\ 0 <= delivered t <= chunk_len.
Proof.
  unfold wfile_write, chunk_len, clamp.
  destruct (on_write c i) as [[e part] |]; simpl;
    repeat split; try (constructor; [simpl | constructor]); lia.
Qed.

Lemma wfile_flush_events (c : conn) (i : nat) :
  let t := trace (wfile_flush c i) in
  Forall stream_event t /\ offered t = 0 /\ delivered t = 0.
Proof.
  unfold wfile_flush. destruct (on_flush c i); simpl;
    repeat split; constructor; simpl; auto.
Qed.

(** One pass over the loop never offers more than what is left below the
    ceiling, when the ceiling is a whole number of chunks away. *)
Lemma stream_loop_bounded (ceiling : Z) (c : conn) (i : nat) (sent : Z) :
  (ceiling - sent) mod chunk_len = 0 ->
  sent <= ceiling ->
  let t := trace (stream_loop ceiling c i sent) in
  Forall stream_event t /\
  0 <= delivered t /\ delivered t <= offered t /\ offered t <= ceiling - sent.
Proof.
  funelim (stream_loop ceiling c i sent); intros Hmod Hle; cbv zeta.
  - clear Heqcall.
    assert (Hstep : chunk_len <= ceiling - sent).
    { apply Z.mod_divide in Hmod; [| unfold chunk_len; lia].
      destruct Hmod as [q Hq]. unfold chunk_len in *. lia. }
    assert (Hmod' : (ceiling - (sent + chunk_len)) mod chunk_len = 0).
    { replace (ceiling - (sent + chunk_len))
        with (ceiling - sent + (-1) * chunk_len) by lia.
      rewrite Z.mod_add; [exact Hmod | unfold chunk_len; lia]. }
    specialize (H tt tt Hmod' ltac:(lia)). cbv zeta in H.
    destruct H as (Hev & Hd0 & Hdo & Ho).
    destruct (wfile_write_chunk c i) as (Wev & Wo & Wd).
    destruct (wfile_flush_events c i) as (Fev & Fo & Fd).
    rewrite !trace_bind.
    destruct (result (wfile_write c i chunk_len)).
    + destruct (result (wfile_flush c i)).
      * rewrite !Forall_app, !offered_app, !delivered_app.
        repeat split; auto; lia.
      * rewrite app_nil_r, !Forall_app, !offered_app, !delivered_app.
        repeat split; auto; lia.
    + rewrite app_nil_r. repeat split; auto; lia.
  - simpl. repeat split; try constructor; lia.
Qed.

(** A client that never breaks the connection gets exactly the bytes up
    to the ceiling, after which the loop returns. *)
Lemma stream_loop_open (ceiling : Z) (c : conn) (i : nat) (sent : Z) :
  (forall j, on_write c j = None /\ on_flush c j = None) ->
  (ceiling - sent) mod chunk_len = 0 ->
  sent <= ceiling ->
  delivered (trace (stream_loop ceiling c i sent)) = ceiling - sent /\
  result (stream_loop ceiling c i sent) = Ret tt.
Proof.
  intros Hopen.
  funelim (stream_loop ceiling c i sent); intros Hmod Hle.
  - clear Heqcall.
    assert (Hpos : 0 < chunk_len) by (unfold chunk_len; lia).
    assert (Hstep : chunk_len <= ceiling - sent).
    { apply Z.mod_divide in Hmod; [| unfold chunk_len; lia].
      destruct Hmod as [q Hq]. unfold chunk_len in *. lia. }
    assert (Hmod' : (ceiling - (sent + chunk_len)) mod chunk_len = 0).
    { replace (ceiling - (sent + chunk_len))
        with (ceiling - sent + (-1) * chunk_len) by lia.
      rewrite Z.mod_add; [exact Hmod | lia]. }
    destruct (H tt tt Hopen Hmod' ltac:(lia)) as (Hd & Hr).
    destruct (Hopen i) as (Hw & Hf).
    rewrite !trace_bind, !result_bind.
    unfold wfile_write, wfile_flush. rewrite Hw, Hf.
    clear H Hmod Hmod' Heq.
    set (rest := stream_loop ceiling c (S i) (sent + chunk_len)) in *.
    clearbody rest. destruct rest as [t r].
    simpl in Hd, Hr. subst r.
    unfold trace, result, emit, call, bind, ret. cbn [fst snd app delivered].
    split; [lia | reflexivity].
  - simpl. split; [lia | reflexivity].
Qed.

Lemma MAX_TEST_BYTES_chunks : (MAX_TEST_BYTES - 0) mod chunk_len = 0.
Proof. reflexivity. Qed.

(** [except (BrokenPipeError, ConnectionResetError, OSError): pass]
    [except Exception as e: print("HTTP stream error:", e)] *)
Lemma payload_phase (c : conn) (h : exn -> option (M unit)) :
  (forall e, h e = None \/ h e = Some (ret tt) \/
             h e = Some (emit (PrintExn "HTTP stream error:" e))) ->
  let m := try_except (stream_loop MAX_TEST_BYTES c 0%nat 0) h in
  Forall stream_event (trace m) /\
  0 <= delivered (trace m) /\
  delivered (trace m) <= offered (trace m) /\
  offered (trace m) <= MAX_TEST_BYTES /\
  ((forall j, on_write c j = None /\ on_flush c j = None) ->
   delivered (trace m) = MAX_TEST_BYTES /\ result m = Ret tt).
Proof.
  intros Hh.
  destruct (stream_loop_bounded MAX_TEST_BYTES c 0%nat 0 MAX_TEST_BYTES_chunks)
    as (Hev & Hd0 & Hdo & Ho); [unfold MAX_TEST_BYTES; simpl; lia |].
  pose proof (stream_loop_open MAX_TEST_BYTES c 0%nat 0) as Hfull.
  cbv zeta in *.
  set (loop := stream_loop MAX_TEST_BYTES c 0%nat 0) in *. clearbody loop.
  rewrite Z.sub_0_r in *.
  destruct loop as [t [[] | e]]; unfold try_except, trace, result in *;
    cbn [fst snd] in *.
  - repeat split; auto; apply Hfull; auto;
      solve [reflexivity | unfold MAX_TEST_BYTES; simpl; lia].
  - assert (Hclosed : (forall j, on_write c j = None /\ on_flush c j = None) ->
                      False).
    { intros Hopen.
      destruct (Hfull Hopen MAX_TEST_BYTES_chunks) as [_ Habs];
        [unfold MAX_TEST_BYTES; simpl; lia | discriminate]. }
    destruct (Hh e) as [-> | [-> | ->]]; unfold ret, emit; cbn [fst snd].
    + repeat split; auto. all: exfalso; apply Hclosed; assumption.
    + rewrite app_nil_r. repeat split; auto.
      all: exfalso; apply Hclosed; assumption.
    + rewrite Forall_app, offered_app, delivered_app.
      cbn [offered delivered]. rewrite !Z.add_0_r.
      repeat split; auto.
      1: constructor; [exact I | constructor].
      all: exfalso; apply Hclosed; assumption.
Qed.

(** C2.  A GET on [/bench] is answered with status 200 and content type
    [application/octet-stream], followed by a payload written in chunks
    of 1 MiB whose total never exceeds [MAX_TEST_BYTES], whatever the
    client does; a client that keeps the connection open gets exactly
    that many bytes and the handler returns.  A GET on any other path is
    answered with 404. *)
Theorem do_GET_response (c : conn) (path : string) :
  (path = "/bench" ->
   exists body,
     trace (do_GET c path) =
       [SendResponse 200;
        SendHeader "Content-Type" "application/octet-stream";
        EndHeaders] ++ body /\
     Forall stream_event body /\
     0 <= delivered body /\
     delivered body <= offered body /\
     offered body <= MAX_TEST_BYTES /\
     (open_connection c ->
      delivered body = MAX_TEST_BYTES /\ result (do_GET c path) = Ret tt)) /\
  (path <> "/bench" -> trace (do_GET c path) = [SendError 404]).
Proof.
  unfold do_GET, do_GET_with. split.
  - intros ->. change (negb ("/bench" =? "/bench")%string) with false.
    cbv iota.
    match goal with
    | |- context [try_except _ ?h] =>
        destruct (payload_phase c h) as (Hev & Hd0 & Hdo & Ho & Hfull)
    end.
    { intros e. destruct (is_OSError e); [auto |].
      destruct (is_Exception e); auto. }
    cbv zeta in *.
    match goal with
    | |- context [try_except ?b ?h] =>
        set (payload := try_except b h) in *; clearbody payload
    end.
    rewrite !trace_bind, !result_bind.
    destruct (on_end_headers c) as [e |] eqn:Hend;
      unfold call, emit, ret, raise, trace, result in *; cbn [fst snd app].
    + exists []. repeat split; try constructor; try reflexivity;
        try (unfold MAX_TEST_BYTES; simpl; lia).
      all: match goal with
           | H : open_connection _ |- _ =>
               destruct H as [Hopen _]; rewrite Hend in Hopen; discriminate
           end.
    + exists (fst payload). repeat split; auto.
      all: match goal with
           | H : open_connection _ |- _ =>
               destruct H as [_ Hopen]; apply Hfull; exact Hopen
           end.
  - intros Hne.
    destruct (String.eqb_spec path "/bench") as [-> | _]; [contradiction |].
    simpl. destruct (on_send_error c); reflexivity.
Qed.

(** ** Process runner *)

Lemma collect_app {A} (f : event -> option A) (t u : list event) :
  collect f (t ++ u) = collect f t ++ collect f u.
Proof. unfold collect. apply flat_map_app. Qed.

Ltac case_exceptions :=
  repeat match goal with
         | |- context [is_Exception ?e] =>
             let E := fresh "E" in destruct (is_Exception e) eqn:E; simpl
         end.

(** The calls [terminate_process] makes on a process. *)
Lemma terminate_process_trace (p : popen) :
  trace (terminate_process (Some p)) =
  Terminate (pid p)
    :: match on_terminate p with
       | None => [Wait (pid p) 4]
       | Some _ => []
       end
    ++ [Kill (pid p)].
Proof.
  unfold terminate_process, p_terminate, p_wait, p_kill, except_Exception.
  destruct (on_terminate p), (on_wait p), (on_kill p); simpl;
    case_exceptions; reflexivity.
Qed.

Lemma terminate_process_tidy (p : popen) :
  tidy p = true -> result (terminate_process (Some p)) = Ret tt.
Proof.
  unfold tidy, swallowed, terminate_process, p_terminate, p_wait, p_kill,
    except_Exception.
  destruct (on_terminate p), (on_wait p), (on_kill p); simpl;
    case_exceptions; intros H; try discriminate; reflexivity.
Qed.

(** C10.  [terminate_process] propagates no error: without a process
    handle it returns at once, making no call; on a process whose
    [terminate], [wait] and [kill] raise errors it returns normally; and
    whatever leaves it is not an instance of [Exception]. *)
Theorem terminate_process_never_raises :
  terminate_process None = ([], Ret tt) /\
  (forall p, tidy p = true -> result (terminate_process (Some p)) = Ret tt) /\
  (forall h e, result (terminate_process h) = Raise e -> is_Exception e = false).
Proof.
  split; [reflexivity | split].
  - exact terminate_process_tidy.
  - intros [p |] e; [| discriminate].
    unfold terminate_process, p_terminate, p_wait, p_kill, except_Exception.
    destruct (on_terminate p), (on_wait p), (on_kill p); simpl;
      case_exceptions; intros H; try discriminate; congruence.
Qed.

(** The calls of the stop operation: on every process handle [kill()]
    is called once, as the last call, after [terminate(); wait(4)] when
    [terminate()] returned and after [terminate()] alone when it raised;
    what the call does to the process is in
    [force_kill_only_when_alive].  Without a handle nothing is called. *)
Lemma terminate_process_calls (p : popen) :
  trace (terminate_process None) = [] /\
  trace (terminate_process (Some p)) =
    Terminate (pid p)
      :: match on_terminate p with
         | None => [Wait (pid p) 4]
         | Some _ => []
         end
      ++ [Kill (pid p)] /\
  killed (trace (terminate_process (Some p))) = [pid p].
Proof.
  split; [reflexivity | split].
  - apply terminate_process_trace.
  - rewrite terminate_process_trace.
    destruct (on_terminate p); reflexivity.
Qed.

(** ** Secrets *)

Lemma prefix_spec (a b : string) :
  String.prefix a b = true <-> exists post, b = (a ++ post)%string.
Proof.
  revert b. induction a as [| x a IH]; intros b.
  - split; [intros _; now exists b | destruct b; reflexivity].
  - destruct b as [| y b]; simpl.
    + split; [discriminate | intros [post H]; discriminate].
    + destruct (ascii_dec x y) as [-> | Hne].
      * rewrite IH. split; intros [post H]; exists post.
        -- now rewrite H.
        -- now inversion H.
      * split; [discriminate |].
        intros [post H]. inversion H. congruence.
Qed.

(** [needle in hay] decides occurrence. *)
Lemma str_in_spec (needle hay : string) :
  str_in needle hay = true <-> Substring needle hay.
Proof.
  unfold Substring. induction hay as [| y hay IH]; cbn [str_in].
  - rewrite orb_false_r, prefix_spec. split.
    + intros [post H]. now exists "", post.
    + intros (pre & post & H). exists post.
      destruct pre; [exact H | discriminate].
  - rewrite orb_true_iff, prefix_spec, IH. split.
    + intros [[post H] | (pre & post & H)].
      * now exists "", post.
      * exists (String y pre), post. simpl. now rewrite H.
    + intros (pre & post & H). destruct pre as [| x pre].
      * left. now exists post.
      * right. inversion H. now exists pre, post.
Qed.

(** C8.  For a method whose name contains "128" the secret is what
    one run of openssl, asked for 16 random bytes (the byte length of
    128 bits), printed, with the white space around it removed; for
    every other method it is what openssl printed when asked for 32
    bytes (256 bits).  Nothing else is run, and the call raises what the
    openssl run raises. *)
Theorem get_pwd_for_method_bits (tool : res string) (method : string) :
  let secret :=
    match tool with
    | Ret out => Ret (strip out)
    | Raise e => Raise e
    end in
  128 / 8 = 16 /\ 256 / 8 = 32 /\
  (Substring "128" method ->
   get_pwd_for_method tool method = gen_password tool 128 /\
   get_pwd_for_method tool method =
     ([Exec [OPENSSL; "rand"; "-base64"; "16"]], secret)) /\
  (~ Substring "128" method ->
   get_pwd_for_method tool method = gen_password tool 256 /\
   get_pwd_for_method tool method =
     ([Exec [OPENSSL; "rand"; "-base64"; "32"]], secret)).
Proof.
  cbv zeta. split; [reflexivity | split; [reflexivity |]].
  unfold get_pwd_for_method.
  destruct (str_in "128" method) eqn:Hin; split; intros H.
  - split; [reflexivity |]. destruct tool; reflexivity.
  - apply str_in_spec in Hin. contradiction.
  - apply str_in_spec in H. congruence.
  - split; [reflexivity |]. destruct tool; reflexivity.
Qed.

(** ** Transfer measurement *)

Lemma run_curl_errors (tool : res string) (port : Z) :
  match tool with Raise e => is_Exception e = true | Ret _ => True end ->
  result (run_curl tool port) = Ret (measured tool).
Proof.
  unfold run_curl, measured, try_except, except_Exception.
  destruct tool as [raw | e]; simpl.
  - intros _. destruct (py_float (strip raw)); reflexivity.
  - intros ->. simpl. destruct (exn_output e); reflexivity.
Qed.

Lemma run_curl_returned (tool : res string) (port : Z) (v : option float) :
  result (run_curl tool port) = Ret v -> v = measured tool.
Proof.
  unfold run_curl, measured, try_except, except_Exception.
  destruct tool as [raw | e]; simpl.
  - destruct (py_float (strip raw)); simpl; congruence.
  - destruct (is_Exception e); simpl; [| discriminate].
    destruct (exn_output e); simpl; congruence.
Qed.

Lemma run_curl_quiet (tool : res string) (port : Z) :
  port_pairs (trace (run_curl tool port)) = [] /\
  spawns (trace (run_curl tool port)) = [] /\
  terminated (trace (run_curl tool port)) = [] /\
  killed (trace (run_curl tool port)) = [].
Proof.
  unfold run_curl, try_except, except_Exception.
  destruct tool as [raw | e]; simpl.
  - destruct (py_float (strip raw)); simpl; auto.
  - destruct (is_Exception e); simpl; [| auto].
    destruct (exn_output e); simpl; auto.
Qed.

Lemma terminate_process_quiet (h : option popen) :
  port_pairs (trace (terminate_process h)) = [] /\
  spawns (trace (terminate_process h)) = [].
Proof.
  destruct h as [p |]; [| split; reflexivity].
  rewrite terminate_process_trace. destruct (on_terminate p); split; reflexivity.
Qed.

Lemma terminate_process_terminated (p : popen) :
  terminated (trace (terminate_process (Some p))) = [pid p] /\
  killed (trace (terminate_process (Some p))) = [pid p].
Proof.
  rewrite terminate_process_trace. destruct (on_terminate p); split; reflexivity.
Qed.

(** ** One turn of the loop *)

Ltac crunch :=
  cbn [bind emit ret lift call raise fst snd app result trace
       openssl_out write_server write_client server_popen client_popen
       curl_out andb
       append_result advance results sp cp].

(** Case analysis on everything the outside world decides in one turn.
    The equations of the three absorbed calls are kept as [Hsrv], [Hcli]
    and [Hcurl]. *)
Ltac walk_turn w method st :=
  unfold iteration, get_pwd_for_method, gen_password, write_cfg,
    start_singbox, gen_ss_config, turn_speed, both_started, started, survives;
  destruct w as [ssl ws wc srv cli curl]; crunch;
  destruct (str_in "128" method);
  (destruct ssl as [out | e]; crunch;
   [destruct ws as [e |]; crunch;
    [| destruct wc as [e |]; crunch;
       [| destruct srv as [ps | e]; crunch;
          [destruct (poll_result ps) eqn:Hpolls; crunch;
           [| destruct cli as [pc | e]; crunch;
              [destruct (poll_result pc) eqn:Hpollc; crunch;
               [destruct (terminate_process (Some ps)) as [t1 [[] | e1]] eqn:Hsrv;
                crunch
               | destruct (run_curl curl (cp st)) as [tc [[v |] | ec]] eqn:Hcurl;
                 crunch;
                 destruct (terminate_process (Some pc)) as [t2 [[] | e2]] eqn:Hcli;
                 crunch;
                 destruct (terminate_process (Some ps)) as [t1 [[] | e1]] eqn:Hsrv;
                 crunch] |]] |]]] |]).

Ltac split_andb :=
  repeat match goal with
         | H : _ && _ = true |- _ => apply andb_true_iff in H; destruct H
         end.

(** A call that the hypotheses say is absorbed cannot have raised. *)
Ltac absorbed :=
  match goal with
  | Ht : tidy ?p = true, Hc : terminate_process (Some ?p) = (_, Raise _) |- _ =>
      let F := fresh in
      pose proof (terminate_process_tidy p Ht) as F; rewrite Hc in F;
      discriminate F
  | He : is_Exception ?e = true, Hc : run_curl (Raise ?e) ?port = (_, Raise _) |- _ =>
      let F := fresh in
      pose proof (run_curl_errors (Raise e) port He) as F; rewrite Hc in F;
      discriminate F
  | Hc : run_curl (Ret ?raw) ?port = (_, Raise _) |- _ =>
      let F := fresh in
      pose proof (run_curl_errors (Ret raw) port I) as F; rewrite Hc in F;
      discriminate F
  end.

Ltac recall H lemma :=
  let F := fresh "F" in
  pose proof lemma as F; rewrite H in F; cbn [trace result fst snd] in F.

Lemma iteration_returned (w : iter_world) (method : string)
  (st st' : bench_state) :
  result (iteration w method st) = Ret st' ->
  st' = advance (append_result st method (turn_speed w))
                (if both_started w then 2 else 1).
Proof.
  walk_turn w method st; try discriminate; try congruence.
  all: recall Hcurl (run_curl_returned curl (cp st));
    rewrite <- (F _ eq_refl); congruence.
Qed.

Lemma iteration_survives (w : iter_world) (method : string) (st : bench_state) :
  survives w = true ->
  result (iteration w method st) =
    Ret (advance (append_result st method (turn_speed w))
                 (if both_started w then 2 else 1)).
Proof.
  walk_turn w method st; try discriminate; try reflexivity.
  all: try (recall Hcurl (run_curl_returned curl (cp st));
            rewrite <- (F _ eq_refl); reflexivity).
  all: intros Hs; try destruct curl; split_andb; absorbed.
Qed.

Lemma terminate_process_untidy (p : popen) :
  tidy p = false -> exists e, result (terminate_process (Some p)) = Raise e.
Proof.
  unfold tidy, swallowed, terminate_process, p_terminate, p_wait, p_kill,
    except_Exception.
  destruct (on_terminate p), (on_wait p), (on_kill p); simpl;
    case_exceptions; intros H; try discriminate; eexists; reflexivity.
Qed.

Lemma run_curl_interrupted (e : exn) (port : Z) :
  is_Exception e = false -> result (run_curl (Raise e) port) = Raise e.
Proof.
  unfold run_curl, try_except, except_Exception. simpl. now intros ->.
Qed.

(** A call that returned was absorbed. *)
Ltac returned :=
  repeat match goal with
         | Hc : terminate_process (Some ?p) = (_, Ret _) |- _ =>
             let E := fresh "E" in
             let F := fresh in
             destruct (tidy p) eqn:E;
             [clear Hc
             | destruct (terminate_process_untidy p E) as [? F];
               rewrite Hc in F; discriminate F]
         | Hc : run_curl (Raise ?e) ?port = (_, Ret _) |- _ =>
             let E := fresh "E" in
             let F := fresh in
             destruct (is_Exception e) eqn:E;
             [clear Hc
             | pose proof (run_curl_interrupted e port E) as F;
               rewrite Hc in F; discriminate F]
         end.

(** [survives] is exact: a turn that does not survive raises. *)
Lemma iteration_raises (w : iter_world) (method : string) (st : bench_state) :
  survives w = false -> exists e, result (iteration w method st) = Raise e.
Proof.
  walk_turn w method st; intros Hs; try discriminate;
    try (eexists; reflexivity).
  all: try destruct curl; returned; discriminate Hs.
Qed.

Lemma collect_cons {A} (f : event -> option A) (ev : event) (t : list event) :
  collect f (ev :: t) =
  match f ev with Some a => a :: collect f t | None => collect f t end.
Proof. unfold collect. simpl. destruct (f ev); reflexivity. Qed.

(** What the absorbed calls of a turn leave in the trace. *)
Ltac facts :=
  repeat match goal with
         | Hc : terminate_process (Some ?p) = _ |- _ =>
             let Q := fresh "Q" in
             let T := fresh "T" in
             pose proof (terminate_process_quiet (Some p)) as Q;
             pose proof (terminate_process_terminated p) as T;
             rewrite Hc in Q, T; cbn [trace fst] in Q, T;
             destruct Q; destruct T; clear Hc
         | Hc : run_curl ?tool ?port = _ |- _ =>
             let Q := fresh "Q" in
             pose proof (run_curl_quiet tool port) as Q;
             rewrite Hc in Q; cbn [trace fst] in Q;
             destruct Q as (? & ? & ? & ?); clear Hc
         end.

Ltac project :=
  unfold port_pairs, spawns, terminated, killed in *;
  repeat (rewrite ?collect_cons, ?collect_app; cbn beta iota);
  repeat match goal with
         | H : collect _ _ = _ |- _ => rewrite ?H; clear H
         end.

Lemma iteration_ports (w : iter_world) (method : string) (st : bench_state) :
  port_pairs (trace (iteration w method st)) =
  match openssl_out w with
  | Ret _ => [(sp st, cp st)]
  | Raise _ => []
  end.
Proof.
  walk_turn w method st; facts; project; reflexivity.
Qed.

Lemma measurement_fails_None (tool : res string) (port : Z) :
  measurement_fails tool ->
  measured tool = None /\ result (run_curl tool port) = Ret None.
Proof.
  intros H.
  assert (Hm : measured tool = None).
  { unfold measured. destruct tool as [raw | e]; [| reflexivity].
    simpl in H. now rewrite H. }
  split; [exact Hm |]. rewrite <- Hm. apply run_curl_errors.
  destruct tool; [exact I | exact H].
Qed.

Lemma start_singbox_exited (w : iter_world) (path name : string) :
  survives w = true ->
  started (server_popen w) = false ->
  result (start_singbox (server_popen w) path name) = Ret None.
Proof.
  unfold survives, started, start_singbox.
  destruct (openssl_out w), (write_server w), (write_client w),
    (server_popen w) as [ps | e']; try discriminate.
  cbn [lift bind emit ret fst snd result].
  destruct (poll_result ps); [reflexivity | discriminate].
Qed.

Lemma spawns_server_only (w : iter_world) (method : string) (st : bench_state) :
  survives w = true ->
  started (server_popen w) = false ->
  spawns (trace (iteration w method st)) =
    [[SINGBOX; "run"; "-c"; path_join WORKDIR ("server-" ++ method ++ ".json")]].
Proof.
  walk_turn w method st; intros; try discriminate; facts; project; reflexivity.
Qed.

Lemma teardown_both (w : iter_world) (method : string) (st : bench_state) :
  survives w = true ->
  both_started w = true ->
  exists ps pc,
    server_popen w = Ret ps /\ client_popen w = Ret pc /\
    terminated (trace (iteration w method st)) = [pid pc; pid ps] /\
    killed (trace (iteration w method st)) = [pid pc; pid ps].
Proof.
  walk_turn w method st; intros; try discriminate.
  all: try (split_andb;
            try match goal with
                | Hc : run_curl ?c _ = (_, Raise _) |- _ => destruct c
                end;
            absorbed).
  all: exists ps, pc; repeat split; facts; project; reflexivity.
Qed.

(** ** The loop *)

Lemma bench_loop_continues (w : nat -> iter_world) (i : nat) (method : string)
  (rest : list string) (st st' : bench_state) :
  result (iteration (w i) method st) = Ret st' ->
  bench_loop w i (method :: rest) st =
    (trace (iteration (w i) method st) ++ trace (bench_loop w (S i) rest st'),
     result (bench_loop w (S i) rest st')).
Proof.
  cbn [bench_loop].
  destruct (iteration (w i) method st) as [t [a | e]]; cbn [result snd];
    intros H; inversion H; subst.
  cbn [bind trace fst]. destruct (bench_loop w (S i) rest st'); reflexivity.
Qed.

(** C1, as the code has it.  A turn that completes advances both port
    counters by the same amount before the next turn: by 2 when both
    processes started, whether or not the measurement then succeeded,
    and by 1 when the server or the client failed to start. *)
Theorem port_stride (w : iter_world) (method : string) (st st' : bench_state) :
  result (iteration w method st) = Ret st' ->
  (both_started w = true -> sp st' = sp st + 2 /\ cp st' = cp st + 2) /\
  (both_started w = false -> sp st' = sp st + 1 /\ cp st' = cp st + 1).
Proof.
  intros H. apply iteration_returned in H. subst st'.
  split; intros ->; split; reflexivity.
Qed.

(** C4.  In a turn whose server process has exited before the end of
    its settle window, the result recorded for the method is a failure,
    the only process started is the server (no client), and the loop
    goes on with the next method. *)
Theorem server_start_failure (w : nat -> iter_world) (i : nat)
  (method : string) (rest : list string) (st : bench_state) :
  survives (w i) = true ->
  started (server_popen (w i)) = false ->
  let turn := iteration (w i) method st in
  let st' := advance (append_result st method None) 1 in
  result (start_singbox (server_popen (w i))
            (path_join WORKDIR ("server-" ++ method ++ ".json")) "server") =
    Ret None /\
  result turn = Ret st' /\
  results st' = results st ++ [(method, None)] /\
  spawns (trace turn) =
    [[SINGBOX; "run"; "-c"; path_join WORKDIR ("server-" ++ method ++ ".json")]] /\
  bench_loop w i (method :: rest) st =
    (trace turn ++ trace (bench_loop w (S i) rest st'),
     result (bench_loop w (S i) rest st')).
Proof.
  intros Hs Hsrv turn st'.
  assert (Hr : result turn = Ret st').
  { unfold turn, st'. rewrite (iteration_survives _ _ _ Hs).
    unfold turn_speed, both_started. rewrite Hsrv. reflexivity. }
  repeat split.
  - apply start_singbox_exited; assumption.
  - exact Hr.
  - apply spawns_server_only; assumption.
  - apply bench_loop_continues. exact Hr.
Qed.

(** C5.  When the transfer tool fails or prints something that is not a
    number, [run_curl] returns [None] and raises nothing, the turn
    records a failure for the method, both processes are torn down
    (client first, then server), and the loop goes on with the next
    method. *)
Theorem measurement_failure (w : nat -> iter_world) (i : nat)
  (method : string) (rest : list string) (st : bench_state) :
  survives (w i) = true ->
  both_started (w i) = true ->
  measurement_fails (curl_out (w i)) ->
  let turn := iteration (w i) method st in
  let st' := advance (append_result st method None) 2 in
  result (run_curl (curl_out (w i)) (cp st)) = Ret None /\
  result turn = Ret st' /\
  results st' = results st ++ [(method, None)] /\
  (exists ps pc,
     server_popen (w i) = Ret ps /\ client_popen (w i) = Ret pc /\
     terminated (trace turn) = [pid pc; pid ps] /\
     killed (trace turn) = [pid pc; pid ps]) /\
  bench_loop w i (method :: rest) st =
    (trace turn ++ trace (bench_loop w (S i) rest st'),
     result (bench_loop w (S i) rest st')).
Proof.
  intros Hs Hb Hm turn st'.
  destruct (measurement_fails_None _ (cp st) Hm) as [Hnone Hcurl].
  assert (Hr : result turn = Ret st').
  { unfold turn, st'. rewrite (iteration_survives _ _ _ Hs).
    unfold turn_speed. rewrite Hb, Hnone. reflexivity. }
  repeat split.
  - exact Hcurl.
  - exact Hr.
  - apply teardown_both; assumption.
  - apply bench_loop_continues. exact Hr.
Qed.

Lemma bench_loop_results (methods : list string) :
  forall (w : nat -> iter_world) (i : nat) (st : bench_state),
    (forall j, (j < List.length methods)%nat -> survives (w (i + j)%nat) = true) ->
    exists st',
      result (bench_loop w i methods st) = Ret st' /\
      results st' = results st ++ expected_results w i methods.
Proof.
  induction methods as [| method rest IH]; intros w i st Hs.
  - exists st. split; [reflexivity |]. cbn. now rewrite app_nil_r.
  - assert (H0 : survives (w i) = true).
    { rewrite <- (Nat.add_0_r i). apply Hs. cbn. lia. }
    pose proof (iteration_survives _ method st H0) as Hturn.
    set (st1 := advance (append_result st method (turn_speed (w i)))
                        (if both_started (w i) then 2 else 1)) in *.
    destruct (IH w (S i) st1) as (st' & Hr & Hres).
    { intros j Hj. replace (S i + j)%nat with (i + S j)%nat by lia.
      apply Hs. cbn. lia. }
    exists st'. split.
    + rewrite (bench_loop_continues _ _ _ _ _ _ Hturn). exact Hr.
    + rewrite Hres. unfold st1. cbn [results advance append_result expected_results].
      now rewrite <- app_assoc.
Qed.

Lemma expected_results_methods (w : nat -> iter_world) (methods : list string) :
  forall i, map fst (expected_results w i methods) = methods.
Proof.
  induction methods as [| method rest IH]; intros i; cbn; [| rewrite IH];
    reflexivity.
Qed.

(** C3.  When no turn meets an exception other than the failures the
    script absorbs (a process that does not start, a transfer that
    fails), the loop returns, and the results it has added are one per
    method, in the order of the list: a process that does not start or a
    transfer that fails puts a failure in the method's place and the
    later methods are still recorded. *)
Theorem results_one_per_method (w : nat -> iter_world) (methods : list string)
  (i : nat) (st : bench_state) :
  (forall j, (j < List.length methods)%nat -> survives (w (i + j)%nat) = true) ->
  exists st',
    result (bench_loop w i methods st) = Ret st' /\
    results st' = results st ++ expected_results w i methods /\
    map fst (results st') = map fst (results st) ++ methods /\
    List.length (results st') = (List.length (results st) + List.length methods)%nat.
Proof.
  intros Hs. destruct (bench_loop_results methods w i st Hs) as (st' & Hr & Hres).
  exists st'. split; [exact Hr | split; [exact Hres |]].
  assert (Hm : map fst (results st') = map fst (results st) ++ methods).
  { now rewrite Hres, map_app, expected_results_methods. }
  split; [exact Hm |].
  rewrite <- (length_map fst (results st')), Hm, length_app, length_map.
  reflexivity.
Qed.

(** ** Port pairs *)

Lemma bench_loop_ports (methods : list string) :
  forall (w : nat -> iter_world) (i : nat) (st : bench_state),
    let ps := port_pairs (trace (bench_loop w i methods st)) in
    StronglySorted port_lt ps /\
    Forall (fun p =>
              sp st <= fst p <= sp st + 2 * Z.of_nat (List.length methods) - 2 /\
              snd p - cp st = fst p - sp st) ps.
Proof.
  induction methods as [| method rest IH]; intros w i st; cbv zeta.
  - cbn. split; constructor.
  - cbn [bench_loop]. rewrite trace_bind.
    unfold port_pairs at 1 2. rewrite collect_app. fold port_pairs.
    rewrite iteration_ports.
    destruct (result (iteration (w i) method st)) as [st' |] eqn:Hr.
    + pose proof (iteration_returned _ _ _ _ Hr) as Hst'.
      assert (Hk : exists k, 1 <= k <= 2 /\ sp st' = sp st + k /\ cp st' = cp st + k).
      { exists (if both_started (w i) then 2 else 1). subst st'. cbn.
        destruct (both_started (w i)); lia. }
      destruct Hk as (k & Hk & Hsp & Hcp).
      destruct (IH w (S i) st') as [Hsorted Hall]. cbv zeta in *.
      set (later := port_pairs (trace (bench_loop w (S i) rest st'))) in *.
      assert (Hall' : Forall (fun p =>
                sp st < fst p <= sp st + 2 * Z.of_nat (List.length (method :: rest)) - 2 /\
                cp st < snd p /\ snd p - cp st = fst p - sp st) later).
      { eapply Forall_impl; [| exact Hall].
        intros [x y]. cbn [fst snd List.length]. lia. }
      destruct (openssl_out (w i)); cbn [app].
      * split.
        -- constructor; [exact Hsorted |].
           eapply Forall_impl; [| exact Hall'].
           intros [x y]. unfold port_lt. cbn. lia.
        -- constructor; [cbn [fst snd List.length]; lia |].
           eapply Forall_impl; [| exact Hall'].
           intros [x y]. cbn [fst snd]. lia.
      * split; [exact Hsorted |].
        eapply Forall_impl; [| exact Hall'].
        intros [x y]. cbn [fst snd]. lia.
    + destruct (openssl_out (w i)); cbn [app].
      * split; [repeat constructor |].
        constructor; [cbn [fst snd List.length]; lia | constructor].
      * split; constructor.
Qed.

Lemma summary_quiet (rows : list (string * option float)) :
  port_pairs (trace (summary rows)) = [].
Proof.
  induction rows as [| [method [v |]] rest IH]; cbn [summary];
    [reflexivity | |];
    rewrite trace_bind; unfold port_pairs in *; rewrite collect_app;
    cbn [emit trace result fst snd]; rewrite IH; reflexivity.
Qed.

Lemma main_ports (w : world) :
  port_pairs (trace (main w)) = [] \/
  port_pairs (trace (main w)) =
    port_pairs (trace (bench_loop (turn w) 0 tests start_state)).
Proof.
  unfold main, start_http_server.
  destruct (httpd_bind w); [left; reflexivity | right].
  cbn [call bind emit ret fst snd app].
  destruct (bench_loop (turn w) 0 tests start_state) as [t [st | e]];
    cbn [bind emit ret fst snd app trace].
  - pose proof (summary_quiet (results st)) as Hq.
    destruct (summary (results st)) as [ts [[] | e]];
      cbn [bind emit ret fst snd app trace] in *.
    all: unfold port_pairs in *;
      repeat (rewrite ?collect_cons, ?collect_app; cbn beta iota);
      rewrite Hq, ?app_nil_r; reflexivity.
  - unfold port_pairs. rewrite ?collect_cons. reflexivity.
Qed.

Lemma sorted_fst_NoDup (ps : list (Z * Z)) :
  StronglySorted port_lt ps -> NoDup (map fst ps) /\ NoDup (map snd ps).
Proof.
  induction 1 as [| p ps Hs IH Hall]; cbn; [split; constructor |].
  destruct IH as [IH1 IH2]. split; constructor; auto.
  - intros Hin. apply in_map_iff in Hin. destruct Hin as (q & Hq & Hin).
    rewrite Forall_forall in Hall. destruct (Hall q Hin). lia.
  - intros Hin. apply in_map_iff in Hin. destruct Hin as (q & Hq & Hin).
    rewrite Forall_forall in Hall. destruct (Hall q Hin). lia.
Qed.

(** C7.  Whatever happens in the turns, the port pairs given out by the
    loop are strictly increasing in both components; and in a run of
    [main] no port is given out twice, as a server port or as a client
    port. *)
Theorem port_pairs_never_reused (w : world) :
  (forall (methods : list string) (i : nat) (st : bench_state),
     StronglySorted port_lt
       (port_pairs (trace (bench_loop (turn w) i methods st)))) /\
  StronglySorted port_lt (port_pairs (trace (main w))) /\
  NoDup (map fst (port_pairs (trace (main w))) ++
         map snd (port_pairs (trace (main w)))).
Proof.
  split; [intros; apply bench_loop_ports |].
  destruct (bench_loop_ports tests (turn w) 0%nat start_state) as [Hs Hall].
  cbv zeta in *.
  destruct (main_ports w) as [-> | ->].
  - split; constructor.
  - split; [exact Hs |].
    destruct (sorted_fst_NoDup _ Hs) as [H1 H2].
    apply NoDup_app; auto.
    intros x Hx Hy.
    apply in_map_iff in Hx. destruct Hx as (p & <- & Hp).
    apply in_map_iff in Hy. destruct Hy as (q & Hq & Hq').
    rewrite Forall_forall in Hall.
    pose proof (Hall p Hp) as Fp. pose proof (Hall q Hq') as Fq.
    cbn in Fp, Fq. unfold BASE_SERVER_PORT, BASE_CLIENT_PORT in *. lia.
Qed.

(** ** The worked transfer *)



(** * Further properties *)

(** ** Stream server: what a broken connection does *)

Lemma collect_nil {A} (f : event -> option A) (t : list event) :
  Forall (fun ev => f ev = None) t -> collect f t = [].
Proof.
  induction 1 as [| ev t Hev _ IH]; [reflexivity |].
  rewrite collect_cons, Hev. exact IH.
Qed.

Lemma stream_loop_wire (ceiling : Z) (c : conn) (i : nat) (sent : Z) :
  Forall wire_event (trace (stream_loop ceiling c i sent)).
Proof.
  funelim (stream_loop ceiling c i sent).
  - clear Heqcall. specialize (H tt tt).
    rewrite !trace_bind.
    assert (Hw : Forall wire_event (trace (wfile_write c i chunk_len))).
    { unfold wfile_write. destruct (on_write c i) as [[e part] |];
        repeat constructor. }
    assert (Hf : Forall wire_event (trace (wfile_flush c i))).
    { unfold wfile_flush. destruct (on_flush c i); repeat constructor. }
    destruct (result (wfile_write c i chunk_len));
      [destruct (result (wfile_flush c i)) |];
      rewrite ?Forall_app; auto.
  - constructor.
Qed.

Lemma stream_loop_breaks (ceiling : Z) (c : conn) (i : nat) (sent : Z) (k : nat) :
  on_write c k <> None \/ on_flush c k <> None ->
  (i <= k)%nat ->
  (List.length (write_calls (trace (stream_loop ceiling c i sent))) <= k + 1 - i)%nat.
Proof.
  funelim (stream_loop ceiling c i sent); intros Hk Hik.
  - clear Heqcall Heq. specialize (H tt tt k Hk).
    set (rest := stream_loop ceiling c (S i) (sent + chunk_len)) in *.
    clearbody rest. destruct rest as [t r]. cbn [trace fst] in H.
    unfold wfile_write, wfile_flush.
    destruct (Nat.eq_dec i k) as [-> | Hne].
    + destruct (on_write c k) as [[e part] |] eqn:Hw;
        [| destruct (on_flush c k) as [e |] eqn:Hf];
        cbn [bind emit call raise ret trace fst snd app];
        unfold write_calls; rewrite ?collect_cons;
        cbn [collect flat_map List.length];
        try lia.
      destruct Hk as [Hk | Hk]; congruence.
    + assert (Hlt : (S i <= k)%nat) by lia. specialize (H Hlt).
      destruct (on_write c i) as [[e part] |]; [| destruct (on_flush c i)];
        cbn [bind emit call raise ret trace fst snd app];
        unfold write_calls in *; rewrite ?collect_cons;
        cbn [collect flat_map List.length];
        lia.
  - cbn. lia.
Qed.

(** X1.  Once a write or a flush on the connection has failed, the
    handler writes nothing more: if the [k]-th write or flush of a
    request fails, the request makes at most [k + 1] writes. *)
Theorem no_write_after_break (c : conn) (path : string) (k : nat) :
  on_write c k <> None \/ on_flush c k <> None ->
  (List.length (write_calls (trace (do_GET c path))) <= k + 1)%nat.
Proof.
  intros Hk. unfold do_GET, do_GET_with.
  destruct (negb (path =? "/bench")%string).
  - destruct (on_send_error c); cbn; lia.
  - pose proof (stream_loop_breaks MAX_TEST_BYTES c 0%nat 0 k Hk (Nat.le_0_l k))
      as Hb.
    set (loop := stream_loop MAX_TEST_BYTES c 0%nat 0) in *. clearbody loop.
    destruct loop as [t [[] | e]]; cbn [trace fst] in Hb.
    all: destruct (on_end_headers c);
      [cbn; lia |];
      unfold try_except; try destruct (is_OSError e);
      try destruct (is_Exception e);
      cbn [bind emit call raise ret trace fst snd app];
      unfold write_calls in *;
      repeat (rewrite ?collect_cons, ?collect_app; cbn beta iota);
      cbn [collect flat_map List.length app]; rewrite ?app_nil_r, ?Nat.add_0_r;
      lia.
Qed.

(** X2.  No error met while streaming leaves the handler: an exception
    that [do_GET] raises was raised while sending the 404 page or the
    headers, or is not an instance of [Exception].  Errors of the
    [OSError] family are absorbed silently; the one message the handler
    prints is for an error outside that family. *)
Theorem do_GET_absorbs_stream_errors (c : conn) (path : string) :
  (forall e, result (do_GET c path) = Raise e ->
     (path <> "/bench" /\ on_send_error c = Some e) \/
     (path = "/bench" /\ (on_end_headers c = Some e \/ is_Exception e = false))) /\
  (List.length (reported (trace (do_GET c path))) <= 1)%nat /\
  (forall label e, In (label, e) (reported (trace (do_GET c path))) ->
     label = "HTTP stream error:" /\ is_OSError e = false /\ is_Exception e = true).
Proof.
  unfold do_GET, do_GET_with.
  destruct (String.eqb_spec path "/bench") as [-> | Hne]; cbn [negb].
  - pose proof (stream_loop_wire MAX_TEST_BYTES c 0%nat 0) as Hw.
    set (loop := stream_loop MAX_TEST_BYTES c 0%nat 0) in *. clearbody loop.
    assert (Hq : reported (trace loop) = []).
    { apply collect_nil. eapply Forall_impl; [| exact Hw].
      intros [] Hev; try reflexivity; destruct Hev. }
    destruct (on_end_headers c) as [eh |].
    { cbn [bind emit call raise ret trace result fst snd app].
      split; [| split].
      - intros e He. inversion He; subst. right. auto.
      - cbn. lia.
      - cbn. intros; contradiction. }
    destruct loop as [t [[] | e0]]; cbn [trace fst] in Hq;
      unfold try_except; [| destruct (is_OSError e0) eqn:Hos;
                            [| destruct (is_Exception e0) eqn:Hex]];
      cbn [bind emit call raise ret trace result fst snd app];
      unfold reported in *;
      repeat (rewrite ?collect_cons, ?collect_app; cbn beta iota);
      rewrite ?Hq; cbn [collect flat_map List.length app In].
    + split; [intros e He; discriminate He | split; [lia | intros; contradiction]].
    + split; [intros e He; discriminate He | split; [lia | intros; contradiction]].
    + split; [intros e He; discriminate He | split; [lia |]].
      intros label e [Heq | []]. inversion Heq; subst. auto.
    + split; [| split; [lia | intros; contradiction]].
      intros e He. inversion He; subst. right. auto.
  - split; [| split].
    + intros e He. left. split; [exact Hne |].
      destruct (on_send_error c); cbn in He; congruence.
    + destruct (on_send_error c); cbn; lia.
    + destruct (on_send_error c); cbn; intros; contradiction.
Qed.

(** ** Tools: transfer and secret *)

(** X3.  [run_curl] runs curl once, through the SOCKS proxy on the
    client port, against the bench path, for at most 14 seconds.  It
    returns a speed only when curl returned text that [float] reads, the
    speed being that number over 1024 * 1024; and what it raises is what
    curl's invocation raised and is not an instance of [Exception]. *)
Theorem run_curl_outcomes (tool : res string) (port : Z) :
  execs (trace (run_curl tool port)) = [curl_argv port] /\
  (forall v, result (run_curl tool port) = Ret (Some v) ->
     exists raw bps,
       tool = Ret raw /\ py_float (strip raw) = Some bps /\
       v = (bps / (1024 * 1024))%float) /\
  (forall e, result (run_curl tool port) = Raise e ->
     tool = Raise e /\ is_Exception e = false).
Proof.
  unfold run_curl, try_except, except_Exception.
  destruct tool as [raw | e0]; cbn [lift bind emit fst snd app].
  - destruct (py_float (strip raw)) as [bps |] eqn:Hf;
      cbn [ret raise bind emit fst snd app is_Exception trace result].
    + split; [reflexivity | split].
      * intros v Hv. inversion Hv. now exists raw, bps.
      * intros e He. discriminate He.
    + split; [reflexivity | split]; intros ? H; discriminate H.
  - destruct (is_Exception e0) eqn:Hex;
      [destruct (exn_output e0) |];
      cbn [ret raise bind emit fst snd app trace result].
    + split; [reflexivity | split]; intros ? H; discriminate H.
    + split; [reflexivity | split]; intros ? H; discriminate H.
    + split; [reflexivity | split].
      * intros v Hv. discriminate Hv.
      * intros e He. inversion He; subst. auto.
Qed.

Lemma string_of_list_ascii_app (l l' : list ascii) :
  string_of_list_ascii (l ++ l') =
  (string_of_list_ascii l ++ string_of_list_ascii l')%string.
Proof. induction l as [| a l IH]; cbn; [| rewrite IH]; reflexivity. Qed.

Lemma rev_string_cons (a : ascii) (s : string) :
  rev_string (String a s) = (rev_string s ++ String a "")%string.
Proof. unfold rev_string. cbn. now rewrite string_of_list_ascii_app. Qed.

Lemma rev_string_involutive (s : string) : rev_string (rev_string s) = s.
Proof.
  unfold rev_string.
  now rewrite list_ascii_of_string_of_list_ascii, rev_involutive,
    string_of_list_ascii_of_string.
Qed.

Lemma rev_string_empty (s : string) : rev_string s = "" -> s = "".
Proof.
  intros H. rewrite <- (rev_string_involutive s), H. reflexivity.
Qed.

Lemma starts_with_space_app (s t : string) :
  s <> "" -> starts_with_space (s ++ t) = starts_with_space s.
Proof. destruct s; [congruence | reflexivity]. Qed.

Lemma lstrip_starts (s : string) : starts_with_space (lstrip s) = false.
Proof.
  induction s as [| a s IH]; cbn; [reflexivity |].
  destruct (is_space a) eqn:Ha; [exact IH | cbn; exact Ha].
Qed.

Lemma lstrip_ends (s : string) :
  ends_with_space s = false -> ends_with_space (lstrip s) = false.
Proof.
  induction s as [| a s IH]; intros H; [reflexivity |].
  cbn [lstrip]. destruct (is_space a); [| exact H].
  destruct s as [| b s]; [reflexivity |].
  apply IH. unfold ends_with_space in *.
  rewrite (rev_string_cons a) in H.
  rewrite starts_with_space_app in H; [exact H |].
  intros Hempty. apply rev_string_empty in Hempty. discriminate.
Qed.

Lemma strip_clean (s : string) :
  starts_with_space (strip s) = false /\ ends_with_space (strip s) = false.
Proof.
  unfold strip. split.
  - change (ends_with_space (lstrip (rev_string (lstrip s))) = false).
    apply lstrip_ends. unfold ends_with_space.
    rewrite rev_string_involutive. apply lstrip_starts.
  - unfold ends_with_space. rewrite rev_string_involutive. apply lstrip_starts.
Qed.

(** X4.  The secret handed to the configs is what openssl printed
    without the white space around it (so without the final newline):
    it neither starts nor ends with white space.  The call raises
    exactly when the openssl invocation does, and runs openssl once,
    asking for 16 or 32 bytes. *)
Theorem password_is_stripped (tool : res string) (method : string) :
  execs (trace (get_pwd_for_method tool method)) = [openssl_argv method] /\
  (forall pw, result (get_pwd_for_method tool method) = Ret pw ->
     exists out,
       tool = Ret out /\ pw = strip out /\
       starts_with_space pw = false /\ ends_with_space pw = false) /\
  (forall e, result (get_pwd_for_method tool method) = Raise e -> tool = Raise e).
Proof.
  unfold get_pwd_for_method, gen_password, openssl_argv.
  destruct (str_in "128" method); destruct tool as [out | e0];
    cbn [lift bind emit ret fst snd app trace result].
  all: split; [reflexivity | split].
  all: try (intros pw H; inversion H; subst; exists out;
            destruct (strip_clean out); auto).
  all: try (intros ? H; discriminate H).
  all: intros e H; inversion H; reflexivity.
Qed.

(** ** One turn: files, processes, tools *)

Lemma terminate_process_silent (h : option popen) :
  files_written (trace (terminate_process h)) = [] /\
  execs (trace (terminate_process h)) = [] /\
  configured (trace (terminate_process h)) = [] /\
  httpd_events (trace (terminate_process h)) = [].
Proof.
  destruct h as [p |]; [| repeat split].
  rewrite terminate_process_trace. destruct (on_terminate p); repeat split.
Qed.

Lemma run_curl_silent (tool : res string) (port : Z) :
  files_written (trace (run_curl tool port)) = [] /\
  execs (trace (run_curl tool port)) = [curl_argv port] /\
  configured (trace (run_curl tool port)) = [] /\
  httpd_events (trace (run_curl tool port)) = [].
Proof.
  unfold run_curl, try_except, except_Exception.
  destruct tool as [raw | e]; simpl.
  - destruct (py_float (strip raw)); simpl; auto.
  - destruct (is_Exception e); simpl; [| auto].
    destruct (exn_output e); simpl; auto.
Qed.

(** Everything the absorbed calls of a turn leave in the trace. *)
Ltac all_facts :=
  repeat match goal with
         | Hc : terminate_process (Some ?p) = _ |- _ =>
             let Q := fresh "Q" in
             let T := fresh "T" in
             let S := fresh "S" in
             pose proof (terminate_process_quiet (Some p)) as Q;
             pose proof (terminate_process_terminated p) as T;
             pose proof (terminate_process_silent (Some p)) as S;
             rewrite Hc in Q, T, S; cbn [trace fst] in Q, T, S;
             destruct Q; destruct T; destruct S as (? & ? & ? & ?); clear Hc
         | Hc : run_curl ?tool ?port = _ |- _ =>
             let Q := fresh "Q" in
             let S := fresh "S" in
             pose proof (run_curl_quiet tool port) as Q;
             pose proof (run_curl_silent tool port) as S;
             rewrite Hc in Q, S; cbn [trace fst] in Q, S;
             destruct Q as (? & ? & ? & ?); destruct S as (? & ? & ? & ?);
             clear Hc
         end.

Ltac project_all :=
  unfold port_pairs, spawns, terminated, killed, files_written, execs,
    configured, httpd_events in *;
  repeat (rewrite ?collect_cons, ?collect_app; cbn beta iota);
  repeat match goal with
         | H : collect _ _ = _ |- _ => rewrite ?H; clear H
         end;
  cbn [collect flat_map app].


Lemma append_inj_l (a x y : string) : (a ++ x = a ++ y)%string -> x = y.
Proof.
  induction a as [| c a IH]; cbn; intros H; [exact H |].
  inversion H. auto.
Qed.

(** X5.  A turn writes the server config and then the client config,
    to two different files of the working directory named after the
    method, and what it writes is the pair [gen_ss_config] makes from
    the method, the stripped secret and the turn's port pair.  Nothing
    is written when openssl failed, and the client file is not written
    when writing the server file failed. *)
Theorem files_of_a_turn (w : iter_world) (method : string) (st : bench_state) :
  let s_path := path_join WORKDIR ("server-" ++ method ++ ".json") in
  let c_path := path_join WORKDIR ("client-" ++ method ++ ".json") in
  s_path <> c_path /\
  files_written (trace (iteration w method st)) =
    match openssl_out w with
    | Raise _ => []
    | Ret secret =>
        (s_path, fst (gen_ss_config method (strip secret) (sp st) (cp st)))
          :: match write_server w with
             | Some _ => []
             | None =>
                 [(c_path,
                   snd (gen_ss_config method (strip secret) (sp st) (cp st)))]
             end
    end.
Proof.
  cbv zeta. split.
  - unfold path_join.
    change (prefix "/" ("server-" ++ method ++ ".json")) with false.
    change (prefix "/" ("client-" ++ method ++ ".json")) with false.
    cbv iota.
    destruct ((WORKDIR =? "")%string || ends_with_slash WORKDIR); intros H;
      apply append_inj_l in H; discriminate H.
  - walk_turn w method st; all_facts; project_all; reflexivity.
Qed.

(** X6.  The two configs [gen_ss_config] makes agree with each other:
    the tunnel outbound of the client has the method, the password and
    the port of the server's inbound and points at the address the
    server listens on; the listen ports are the ports given; and the
    client's one routing rule names the tag of its tunnel outbound. *)
Theorem gen_ss_config_pair (method password : string) (server_port client_port : Z) :
  let server := fst (gen_ss_config method password server_port client_port) in
  let client := snd (gen_ss_config method password server_port client_port) in
  let inbound := [Key "inbounds"; Idx 0] in
  let tunnel := [Key "outbounds"; Idx 0] in
  jat (inbound ++ [Key "listen_port"]) server = Some (JInt server_port) /\
  jat (inbound ++ [Key "listen_port"]) client = Some (JInt client_port) /\
  jat (tunnel ++ [Key "server_port"]) client =
    jat (inbound ++ [Key "listen_port"]) server /\
  jat (tunnel ++ [Key "server"]) client = jat (inbound ++ [Key "listen"]) server /\
  jat (inbound ++ [Key "method"]) server = Some (JStr method) /\
  jat (tunnel ++ [Key "method"]) client = Some (JStr method) /\
  jat (inbound ++ [Key "password"]) server = Some (JStr password) /\
  jat (tunnel ++ [Key "password"]) client = Some (JStr password) /\
  jat (inbound ++ [Key "type"]) server = jat (tunnel ++ [Key "type"]) client /\
  jat [Key "route"; Key "rules"; Idx 0; Key "outbound"] client =
    jat (tunnel ++ [Key "tag"]) client /\
  jat [Key "inbounds"; Idx 1] server = None /\
  jat [Key "inbounds"; Idx 1] client = None /\
  jat [Key "route"; Key "rules"; Idx 1] client = None.
Proof. cbv zeta. repeat split. Qed.


(** X8.  When [Popen] itself raises for the client (the binary cannot be
    run), the exception leaves the turn and the server process that has
    just been started is left running: it is neither terminated nor
    killed. *)
Theorem client_popen_error_leaks_server (w : iter_world) (method : string)
  (st : bench_state) (secret : string) (err : exn) :
  openssl_out w = Ret secret ->
  write_server w = None ->
  write_client w = None ->
  started (server_popen w) = true ->
  client_popen w = Raise err ->
  result (iteration w method st) = Raise err /\
  spawns (trace (iteration w method st)) =
    [singbox_argv "server" method; singbox_argv "client" method] /\
  terminated (trace (iteration w method st)) = [] /\
  killed (trace (iteration w method st)) = [].
Proof.
  unfold singbox_argv.
  walk_turn w method st; intros; try discriminate.
  all: match goal with H : Raise _ = Raise _ |- _ => inversion H; subst end.
  all: repeat split; all_facts; project_all; reflexivity.
Qed.


(** ** The loop and [main]: aborts, counters, the stream server's life *)

Lemma iteration_configured (w : iter_world) (method : string) (st : bench_state) :
  configured (trace (iteration w method st)) =
    match openssl_out w with
    | Ret _ => [method]
    | Raise _ => []
    end /\
  httpd_events (trace (iteration w method st)) = [].
Proof.
  walk_turn w method st; all_facts; project_all; split; reflexivity.
Qed.

Lemma survives_openssl (w : iter_world) :
  survives w = true -> exists secret, openssl_out w = Ret secret.
Proof.
  unfold survives. destruct (openssl_out w) as [secret | e];
    [now exists secret | discriminate].
Qed.

(** X10.  The first turn that meets an exception the script does not
    absorb ends the loop with that exception: the results gathered so
    far are lost with it, and no later method is configured or run. *)
Theorem uncaught_exception_aborts (methods : list string) :
  forall (w : nat -> iter_world) (i : nat) (st : bench_state) (k : nat),
    (k < List.length methods)%nat ->
    (forall j, (j < k)%nat -> survives (w (i + j)%nat) = true) ->
    survives (w (i + k)%nat) = false ->
    (exists e, result (bench_loop w i methods st) = Raise e) /\
    configured (trace (bench_loop w i methods st)) =
      firstn k methods ++
      match openssl_out (w (i + k)%nat) with
      | Ret _ => firstn 1 (skipn k methods)
      | Raise _ => []
      end.
Proof.
  induction methods as [| method rest IH]; intros w i st k Hk Hbefore Hbad.
  - cbn in Hk. lia.
  - destruct k as [| k].
    + rewrite Nat.add_0_r in *.
      destruct (iteration_raises (w i) method st Hbad) as [e He].
      destruct (iteration_configured (w i) method st) as [Hc _].
      cbn [bench_loop]. rewrite result_bind, trace_bind, He.
      split; [now exists e |].
      rewrite app_nil_r, Hc. cbn [firstn skipn app].
      destruct (openssl_out (w i)); reflexivity.
    + assert (H0 : survives (w i) = true).
      { rewrite <- (Nat.add_0_r i). apply Hbefore. lia. }
      pose proof (iteration_survives _ method st H0) as Hturn.
      destruct (survives_openssl _ H0) as [secret Hssl].
      destruct (iteration_configured (w i) method st) as [Hc _].
      rewrite Hssl in Hc.
      set (st1 := advance (append_result st method (turn_speed (w i)))
                          (if both_started (w i) then 2 else 1)) in *.
      destruct (IH w (S i) st1 k) as [Hr Hconf].
      { cbn in Hk. lia. }
      { intros j Hj. replace (S i + j)%nat with (i + S j)%nat by lia.
        apply Hbefore. lia. }
      { replace (S i + k)%nat with (i + S k)%nat by lia. exact Hbad. }
      rewrite (bench_loop_continues _ _ _ _ _ _ Hturn).
      cbn [result trace fst snd]. split; [exact Hr |].
      unfold configured in *. rewrite collect_app, Hc, Hconf.
      replace (S i + k)%nat with (i + S k)%nat by lia. reflexivity.
Qed.

Lemma strides_bounds (w : nat -> iter_world) (n : nat) :
  forall i, Z.of_nat n <= strides w i n <= 2 * Z.of_nat n.
Proof.
  induction n as [| n IH]; intros i; [cbn; lia |].
  cbn [strides]. specialize (IH (S i)). unfold stride.
  destruct (both_started (w i)); lia.
Qed.

(** X11.  When the loop returns, each port counter has grown by the sum
    of the turns' strides, 2 for a turn in which both processes started
    and 1 for the others; so by at least the number of methods and at
    most twice that, and the distance between the two counters is what
    it was at the start. *)
Theorem counters_after_loop (methods : list string) :
  forall (w : nat -> iter_world) (i : nat) (st st' : bench_state),
    result (bench_loop w i methods st) = Ret st' ->
    sp st' = sp st + strides w i (List.length methods) /\
    cp st' = cp st + strides w i (List.length methods) /\
    sp st' - cp st' = sp st - cp st /\
    Z.of_nat (List.length methods) <= sp st' - sp st
      <= 2 * Z.of_nat (List.length methods).
Proof.
  induction methods as [| method rest IH]; intros w i st st' Hr.
  - cbn in Hr. inversion Hr; subst. cbn. lia.
  - cbn [bench_loop] in Hr. rewrite result_bind in Hr.
    destruct (result (iteration (w i) method st)) as [st1 |] eqn:Hturn;
      [| discriminate].
    apply iteration_returned in Hturn.
    destruct (IH w (S i) st1 st' Hr) as (Hsp & Hcp & _ & _).
    pose proof (strides_bounds w (List.length rest) (S i)) as Hb.
    assert (H1 : sp st1 = sp st + stride (w i) /\ cp st1 = cp st + stride (w i)).
    { subst st1. unfold stride. cbn. split; reflexivity. }
    destruct H1 as [H1 H2].
    assert (Hs : 1 <= stride (w i) <= 2).
    { unfold stride. destruct (both_started (w i)); lia. }
    cbn [List.length strides]. lia.
Qed.

Lemma bench_loop_httpd (methods : list string) :
  forall (w : nat -> iter_world) (i : nat) (st : bench_state),
    httpd_events (trace (bench_loop w i methods st)) = [].
Proof.
  induction methods as [| method rest IH]; intros w i st; [reflexivity |].
  cbn [bench_loop]. rewrite trace_bind.
  unfold httpd_events in *. rewrite collect_app.
  destruct (iteration_configured (w i) method st) as [_ Hq].
  unfold httpd_events in Hq. rewrite Hq.
  destruct (result (iteration (w i) method st)); [apply IH | reflexivity].
Qed.

Lemma summary_lines (rows : list (string * option float)) :
  summary rows = (map report_line rows, Ret tt).
Proof.
  induction rows as [| [method [v |]] rest IH]; cbn [summary map report_line];
    [reflexivity | |]; rewrite IH; reflexivity.
Qed.

(** X12.  The stream server is started before the first turn; if its
    port cannot be bound, [main] raises at once and nothing else is
    run.  If the loop raises, [main] raises the same exception and the
    server is never shut down.  If the loop returns, the server is shut
    down and closed once, after the last turn, and the summary then has
    one line per result, in the order of the results; [main] returns. *)
Theorem main_lifecycle (w : world) :
  let loop := bench_loop (turn w) 0 tests start_state in
  (forall e, httpd_bind w = Some e ->
     main w = ([HttpdStart HTTP_SERVER_PORT], Raise e)) /\
  (forall e, httpd_bind w = None -> result loop = Raise e ->
     result (main w) = Raise e /\
     httpd_events (trace (main w)) = [HttpdStart HTTP_SERVER_PORT]) /\
  (forall st, httpd_bind w = None -> result loop = Ret st ->
     main w =
       ([HttpdStart HTTP_SERVER_PORT; Sleep 600] ++ trace loop ++
        [HttpdShutdown; HttpdClose;
         Print (nl ++ rule "=" 40); Print "           SUMMARY";
         Print (rule "-" 40)] ++
        map report_line (results st) ++ [Print (rule "-" 40)],
        Ret (results st))).
Proof.
  cbv zeta. unfold main, start_http_server.
  pose proof (bench_loop_httpd tests (turn w) 0%nat start_state) as Hq.
  destruct (bench_loop (turn w) 0 tests start_state) as [t r].
  cbn [trace result fst snd] in *.
  split; [| split].
  - intros e ->. reflexivity.
  - intros e -> ->. cbn [call bind emit ret fst snd app trace result].
    split; [reflexivity |].
    unfold httpd_events in *. rewrite !collect_cons. cbn beta iota.
    now rewrite Hq.
  - intros st -> ->. cbn [call bind emit ret fst snd app].
    rewrite summary_lines. cbn [bind emit ret fst snd app].
    reflexivity.
Qed.

(** X13.  When the stream server starts and no turn meets an exception
    the script does not absorb, [main] returns, and its results are one
    per method of the test list, in order, each with the speed of its
    turn: the measured speed when both processes started and the
    transfer gave a number, a failure otherwise. *)
Theorem main_results (w : world) :
  httpd_bind w = None ->
  (forall j, (j < List.length tests)%nat -> survives (turn w j) = true) ->
  result (main w) = Ret (expected_results (turn w) 0 tests) /\
  map fst (expected_results (turn w) 0 tests) = tests.
Proof.
  intros Hbind Hs.
  destruct (bench_loop_results tests (turn w) 0%nat start_state Hs)
    as (st & Hr & Hres).
  cbn [results start_state app] in Hres.
  split; [| apply expected_results_methods].
  unfold main, start_http_server. rewrite Hbind.
  destruct (bench_loop (turn w) 0 tests start_state) as [t r].
  cbn [result snd] in Hr. subst r.
  cbn [call bind emit ret fst snd app]. rewrite summary_lines.
  cbn [bind emit ret fst snd app result]. now rewrite Hres.
Qed.

(** X14.  [start_singbox] runs the tunnel binary once on the config
    file and gives back the process exactly when it is still running
    after the settle sleep; for a process that has exited it gives back
    nothing, and an exception of [Popen] leaves it unchanged.  It never
    terminates or kills the process, and reads its error output only
    when it has exited. *)
Theorem start_singbox_outcome (spawned : res popen) (path name : string) :
  let start := start_singbox spawned path name in
  spawns (trace start) = [[SINGBOX; "run"; "-c"; path]] /\
  terminated (trace start) = [] /\
  killed (trace start) = [] /\
  (forall p, result start = Ret (Some p) <->
             spawned = Ret p /\ poll_result p = None) /\
  (result start = Ret None <->
   exists p rc, spawned = Ret p /\ poll_result p = Some rc) /\
  (forall e, result start = Raise e <-> spawned = Raise e) /\
  (forall p, In (ReadStderr (pid p)) (trace start) ->
             exists q rc, spawned = Ret q /\ poll_result q = Some rc).
Proof.
  cbv zeta. unfold start_singbox.
  destruct spawned as [q | e0]; cbn [lift bind emit fst snd app];
    [destruct (poll_result q) as [rc |] eqn:Hpoll |];
    cbn [bind emit ret fst snd app trace result];
    repeat match goal with |- _ /\ _ => split end;
    try reflexivity.
  - intros p. split; [discriminate |].
    intros [Hq Hp]. inversion Hq; subst. congruence.
  - split; [now exists q, rc | reflexivity].
  - intros e. split; discriminate.
  - intros p _. now exists q, rc.
  - intros p. split.
    + intros H. inversion H; subst. auto.
    + intros [Hq _]. inversion Hq. reflexivity.
  - split; [discriminate |].
    intros (p & rc & Hq & Hp). inversion Hq; subst. congruence.
  - intros e. split; discriminate.
  - intros p Hin. cbn [In] in Hin.
    repeat (destruct Hin as [Hin | Hin]; [discriminate Hin |]).
    destruct Hin.
  - intros p. split; [discriminate | intros [Hq _]; discriminate Hq].
  - split; [discriminate | intros (p & rc & Hq & _); discriminate Hq].
  - intros e. split; intros H; inversion H; reflexivity.
  - intros p Hin. cbn [In] in Hin.
    repeat (destruct Hin as [Hin | Hin]; [discriminate Hin |]).
    destruct Hin.
Qed.

(** ** Process runner: the signals that reach the child *)





End Script.

(** * The properties on sample worlds *)

Lemma do_GET_response_witness :
  trace (do_GET quiet "/") = [SendError 404] /\
  exists body,
    trace (do_GET quiet "/bench") =
      [SendResponse 200;
       SendHeader "Content-Type" "application/octet-stream";
       EndHeaders] ++ body /\
    delivered body = MAX_TEST_BYTES.
Proof.
  split.
  - apply (do_GET_response quiet "/"). discriminate.
  - destruct (proj1 (do_GET_response quiet "/bench") eq_refl)
      as (body & Ht & _ & _ & _ & _ & Hopen).
    exists body. split; [exact Ht |].
    apply Hopen. split; [reflexivity | intros i; split; reflexivity].
Defined.

Lemma terminate_process_never_raises_witness :
  tidy (stubborn 7) = true /\
  result (terminate_process (Some (stubborn 7))) = Ret tt /\
  result (terminate_process (Some (interrupted 7))) = Raise KeyboardInterrupt /\
  is_Exception KeyboardInterrupt = false.
Proof.
  destruct terminate_process_never_raises as (_ & Ht & Hr).
  split; [reflexivity | split; [| split; [reflexivity |]]].
  - apply Ht. reflexivity.
  - apply (Hr (Some (interrupted 7)) KeyboardInterrupt). reflexivity.
Defined.


Lemma get_pwd_for_method_bits_witness :
  Substring "128" "2022-blake3-aes-128-gcm" /\
  get_pwd_for_method (Ret ("q83vEjRWeJCrze8SNFZ4kA==" ++ nl)%string)
    "2022-blake3-aes-128-gcm" =
    ([Exec [OPENSSL; "rand"; "-base64"; "16"]],
     Ret "q83vEjRWeJCrze8SNFZ4kA==") /\
  ~ Substring "128" "chacha20-ietf-poly1305" /\
  get_pwd_for_method
    (Ret ("q83vEjRWeJCrze8SNFZ4kKvN7xI0VniQq83vEjRWeJA=" ++ nl)%string)
    "chacha20-ietf-poly1305" =
    ([Exec [OPENSSL; "rand"; "-base64"; "32"]],
     Ret "q83vEjRWeJCrze8SNFZ4kKvN7xI0VniQq83vEjRWeJA=").
Proof.
  assert (H1 : Substring "128" "2022-blake3-aes-128-gcm")
    by (exists "2022-blake3-aes-", "-gcm"; reflexivity).
  assert (H2 : ~ Substring "128" "chacha20-ietf-poly1305")
    by (intros H; apply str_in_spec in H; discriminate H).
  split; [exact H1 | split; [| split; [exact H2 |]]].
  - destruct (get_pwd_for_method_bits
                (Ret ("q83vEjRWeJCrze8SNFZ4kA==" ++ nl)%string)
                "2022-blake3-aes-128-gcm") as (_ & _ & H128 & _).
    apply H128. exact H1.
  - destruct (get_pwd_for_method_bits
                (Ret ("q83vEjRWeJCrze8SNFZ4kKvN7xI0VniQq83vEjRWeJA=" ++ nl)%string)
                "chacha20-ietf-poly1305") as (_ & _ & _ & H256).
    apply H256. exact H2.
Defined.

(** C1 fails as stated: after a turn whose server did not start, the
    next port pair is one above the last, not two. *)
Lemma stride_after_failed_start :
  port_pairs
    (trace (bench_loop float_of_digits sample_dir (fun _ => server_fails) 0
              ["aes-256-gcm"; "chacha20-ietf-poly1305"] start_state)) =
    [(20000, 15000); (20001, 15001)] /\
  20001 <> 20000 + 2 /\ 15001 <> 15000 + 2.
Proof. split; [vm_compute; reflexivity | split; discriminate]. Qed.

Lemma port_stride_witness :
  let after_fine :=
    {| results := [("none", Some 11.920928955078125%float)];
       sp := 20002; cp := 15002 |} in
  let after_failure :=
    {| results := [("none", None)]; sp := 20001; cp := 15001 |} in
  result (iteration float_of_digits sample_dir fine_turn "none" start_state) =
    Ret after_fine /\
  result (iteration float_of_digits sample_dir server_fails "none" start_state) =
    Ret after_failure /\
  (sp after_fine = sp start_state + 2 /\ cp after_fine = cp start_state + 2) /\
  (sp after_failure = sp start_state + 1 /\ cp after_failure = cp start_state + 1).
Proof.
  intros after_fine after_failure.
  assert (H1 : result (iteration float_of_digits sample_dir fine_turn "none"
                         start_state) = Ret after_fine)
    by (vm_compute; reflexivity).
  assert (H2 : result (iteration float_of_digits sample_dir server_fails "none"
                         start_state) = Ret after_failure)
    by (vm_compute; reflexivity).
  split; [exact H1 | split; [exact H2 | split]].
  - apply (port_stride float_of_digits sample_dir fine_turn "none" start_state
             after_fine H1). reflexivity.
  - apply (port_stride float_of_digits sample_dir server_fails "none" start_state
             after_failure H2). reflexivity.
Defined.

Lemma results_one_per_method_witness :
  (forall j, (j < List.length tests)%nat -> survives (turn rough_run (0 + j)) = true) /\
  exists st',
    result (bench_loop float_of_digits sample_dir (turn rough_run) 0 tests
              start_state) = Ret st' /\
    map fst (results st') = tests /\
    List.length (results st') = 6%nat.
Proof.
  assert (Hs : forall j, (j < List.length tests)%nat ->
                         survives (turn rough_run (0 + j)) = true).
  { intros j Hj. do 6 (destruct j as [| j]; [reflexivity |]).
    cbn in Hj. lia. }
  split; [exact Hs |].
  destruct (results_one_per_method float_of_digits sample_dir (turn rough_run)
              tests 0 start_state Hs) as (st' & Hr & _ & Hm & Hl).
  exists st'. split; [exact Hr | split; [exact Hm | exact Hl]].
Defined.

Lemma server_start_failure_witness :
  survives (turn rough_run 1) = true /\
  started (server_popen (turn rough_run 1)) = false /\
  result (iteration float_of_digits sample_dir (turn rough_run 1) "aes-128-gcm"
            start_state) =
    Ret (advance (append_result start_state "aes-128-gcm" None) 1) /\
  spawns (trace (iteration float_of_digits sample_dir (turn rough_run 1)
                   "aes-128-gcm" start_state)) =
    [[SINGBOX; "run"; "-c"; path_join sample_dir "server-aes-128-gcm.json"]].
Proof.
  split; [reflexivity | split; [reflexivity |]].
  destruct (server_start_failure float_of_digits sample_dir (turn rough_run) 1
              "aes-128-gcm" ["aes-256-gcm"] start_state eq_refl eq_refl)
    as (_ & H1 & _ & H3 & _).
  split; [exact H1 | exact H3].
Defined.

Lemma measurement_failure_witness :
  survives (turn rough_run 3) = true /\
  both_started (turn rough_run 3) = true /\
  measurement_fails float_of_digits (curl_out (turn rough_run 3)) /\
  result (run_curl float_of_digits (curl_out (turn rough_run 3)) 15000) = Ret None /\
  result (iteration float_of_digits sample_dir (turn rough_run 3)
            "chacha20-ietf-poly1305" start_state) =
    Ret (advance (append_result start_state "chacha20-ietf-poly1305" None) 2).
Proof.
  split; [reflexivity | split; [reflexivity | split; [reflexivity |]]].
  destruct (measurement_failure float_of_digits sample_dir (turn rough_run) 3
              "chacha20-ietf-poly1305" [] start_state eq_refl eq_refl eq_refl)
    as (H1 & H2 & _).
  split; [exact H1 | exact H2].
Defined.


(** A whole run in which four of the six methods fail in their own ways:
    every method is recorded, and the port pairs advance by 1 after a
    process that did not start and by 2 otherwise. *)
Example rough_run_results :
  result (main float_of_digits sample_dir rough_run) =
    Ret [("none", Some 11.920928955078125%float);
         ("aes-128-gcm", None);
         ("aes-256-gcm", None);
         ("chacha20-ietf-poly1305", None);
         ("2022-blake3-aes-128-gcm", None);
         ("2022-blake3-aes-256-gcm", Some 11.920928955078125%float)].
Proof. vm_compute. reflexivity. Qed.

Example rough_run_ports :
  port_pairs (trace (main float_of_digits sample_dir rough_run)) =
    [(20000, 15000); (20002, 15002); (20003, 15003);
     (20004, 15004); (20006, 15006); (20008, 15008)].
Proof. vm_compute. reflexivity. Qed.

Example rough_run_teardown :
  terminated (trace (main float_of_digits sample_dir rough_run)) =
    [102; 101; 101; 102; 101; 102; 101; 102; 101] /\
  killed (trace (main float_of_digits sample_dir rough_run)) =
    [102; 101; 101; 102; 101; 102; 101; 102; 101].
Proof. split; vm_compute; reflexivity. Qed.

Example short_stream :
  do_GET_with (3 * 1024 * 1024) quiet "/bench" =
    ([SendResponse 200;
      SendHeader "Content-Type" "application/octet-stream";
      EndHeaders;
      WfileWrite 1048576 1048576; Flush;
      WfileWrite 1048576 1048576; Flush;
      WfileWrite 1048576 1048576; Flush],
     Ret tt).
Proof. vm_compute. reflexivity. Qed.

(** * The further properties on sample worlds *)

Lemma no_write_after_break_witness :
  on_write (breaks_at 2 BrokenPipeError 100) 2 <> None /\
  write_calls (trace (do_GET (breaks_at 2 BrokenPipeError 100) "/bench")) =
    [(1048576, 1048576); (1048576, 1048576); (1048576, 100)] /\
  (List.length
     (write_calls (trace (do_GET (breaks_at 2 BrokenPipeError 100) "/bench")))
   <= 2 + 1)%nat.
Proof.
  assert (H : on_write (breaks_at 2 BrokenPipeError 100) 2 <> None)
    by discriminate.
  split; [exact H | split; [vm_compute; reflexivity |]].
  apply (no_write_after_break (breaks_at 2 BrokenPipeError 100) "/bench" 2).
  left. exact H.
Defined.

Lemma do_GET_absorbs_stream_errors_witness :
  reported (trace (do_GET (breaks_at 1 (ValueError "closed") 0) "/bench")) =
    [("HTTP stream error:", ValueError "closed")] /\
  is_OSError (ValueError "closed") = false /\
  is_Exception (ValueError "closed") = true /\
  result (do_GET (breaks_at 1 (ValueError "closed") 0) "/bench") = Ret tt /\
  reported (trace (do_GET (breaks_at 1 BrokenPipeError 0) "/bench")) = [].
Proof.
  assert (H : reported (trace (do_GET (breaks_at 1 (ValueError "closed") 0)
                                 "/bench")) =
              [("HTTP stream error:", ValueError "closed")])
    by (vm_compute; reflexivity).
  destruct (do_GET_absorbs_stream_errors (breaks_at 1 (ValueError "closed") 0)
              "/bench") as (_ & _ & Hrep).
  destruct (Hrep "HTTP stream error:" (ValueError "closed")) as (_ & Hos & Hex).
  { rewrite H. left. reflexivity. }
  split; [exact H | split; [exact Hos | split; [exact Hex |]]].
  split; vm_compute; reflexivity.
Defined.

Lemma run_curl_outcomes_witness :
  result (run_curl float_of_digits (Raise KeyboardInterrupt) 15000) =
    Raise KeyboardInterrupt /\
  is_Exception KeyboardInterrupt = false /\
  exists raw bps,
    Ret ("12500000" ++ nl)%string = Ret raw /\
    float_of_digits (strip raw) = Some bps /\
    11.920928955078125%float = (bps / (1024 * 1024))%float.
Proof.
  split; [reflexivity | split].
  - destruct (run_curl_outcomes float_of_digits (Raise KeyboardInterrupt) 15000)
      as (_ & _ & Hraise).
    apply (Hraise KeyboardInterrupt). reflexivity.
  - destruct (run_curl_outcomes float_of_digits
                (Ret ("12500000" ++ nl)%string) 15000) as (_ & Hsome & _).
    apply (Hsome 11.920928955078125%float). reflexivity.
Defined.

Lemma password_is_stripped_witness :
  result (get_pwd_for_method (Ret (" c2VjcmV0" ++ nl)%string) "none") =
    Ret "c2VjcmV0" /\
  exists out,
    Ret (" c2VjcmV0" ++ nl)%string = Ret out /\ "c2VjcmV0" = strip out /\
    starts_with_space "c2VjcmV0" = false /\ ends_with_space "c2VjcmV0" = false.
Proof.
  split; [reflexivity |].
  destruct (password_is_stripped (Ret (" c2VjcmV0" ++ nl)%string) "none")
    as (_ & Hret & _).
  apply (Hret "c2VjcmV0"). reflexivity.
Defined.


Lemma client_popen_error_leaks_server_witness :
  started (server_popen popen_missing) = true /\
  client_popen popen_missing = Raise FileNotFoundError /\
  result (iteration float_of_digits sample_dir popen_missing "none" start_state) =
    Raise FileNotFoundError /\
  terminated (trace (iteration float_of_digits sample_dir popen_missing "none"
                       start_state)) = [] /\
  killed (trace (iteration float_of_digits sample_dir popen_missing "none"
                   start_state)) = [].
Proof.
  split; [reflexivity | split; [reflexivity |]].
  destruct (client_popen_error_leaks_server float_of_digits sample_dir
              popen_missing "none" start_state _ FileNotFoundError
              eq_refl eq_refl eq_refl eq_refl eq_refl)
    as (Hr & _ & Ht & Hk).
  split; [exact Hr | split; [exact Ht | exact Hk]].
Defined.


Lemma uncaught_exception_aborts_witness :
  survives (turn broken_run 2) = false /\
  (exists e, result (bench_loop float_of_digits sample_dir (turn broken_run) 0
                       tests start_state) = Raise e) /\
  configured (trace (bench_loop float_of_digits sample_dir (turn broken_run) 0
                       tests start_state)) = ["none"; "aes-128-gcm"].
Proof.
  split; [reflexivity |].
  destruct (uncaught_exception_aborts float_of_digits sample_dir tests
              (turn broken_run) 0 start_state 2) as [Hr Hc].
  - cbn. lia.
  - intros j Hj. do 2 (destruct j as [| j]; [reflexivity |]). lia.
  - reflexivity.
  - split; [exact Hr | exact Hc].
Defined.

Lemma counters_after_loop_witness :
  let st' :=
    {| results :=
         [("none", Some 11.920928955078125%float);
          ("aes-128-gcm", None);
          ("aes-256-gcm", None);
          ("chacha20-ietf-poly1305", None);
          ("2022-blake3-aes-128-gcm", None);
          ("2022-blake3-aes-256-gcm", Some 11.920928955078125%float)];
       sp := 20010; cp := 15010 |} in
  result (bench_loop float_of_digits sample_dir (turn rough_run) 0 tests
            start_state) = Ret st' /\
  strides (turn rough_run) 0 6 = 10 /\
  sp st' = sp start_state + strides (turn rough_run) 0 (List.length tests) /\
  sp st' - cp st' = sp start_state - cp start_state.
Proof.
  intros st'.
  assert (H : result (bench_loop float_of_digits sample_dir (turn rough_run) 0
                        tests start_state) = Ret st')
    by (vm_compute; reflexivity).
  destruct (counters_after_loop float_of_digits sample_dir tests
              (turn rough_run) 0 start_state st' H) as (Hsp & _ & Hd & _).
  split; [exact H | split; [reflexivity | split; [exact Hsp | exact Hd]]].
Defined.

Lemma main_lifecycle_witness :
  httpd_bind port_taken = Some (OSError "[Errno 98] Address already in use") /\
  main float_of_digits sample_dir port_taken =
    ([HttpdStart HTTP_SERVER_PORT],
     Raise (OSError "[Errno 98] Address already in use")) /\
  httpd_events (trace (main float_of_digits sample_dir broken_run)) =
    [HttpdStart HTTP_SERVER_PORT].
Proof.
  split; [reflexivity | split].
  - destruct (main_lifecycle float_of_digits sample_dir port_taken)
      as (Hbind & _ & _).
    apply Hbind. reflexivity.
  - destruct (main_lifecycle float_of_digits sample_dir broken_run)
      as (_ & Hloop & _).
    apply (Hloop FileNotFoundError); [reflexivity | vm_compute; reflexivity].
Defined.

Lemma main_results_witness :
  httpd_bind rough_run = None /\
  result (main float_of_digits sample_dir rough_run) =
    Ret (expected_results float_of_digits (turn rough_run) 0 tests).
Proof.
  split; [reflexivity |].
  apply (main_results float_of_digits sample_dir rough_run); [reflexivity |].
  intros j Hj. do 6 (destruct j as [| j]; [reflexivity |]). cbn in Hj. lia.
Defined.

Lemma start_singbox_outcome_witness :
  result (start_singbox (Ret (exited 101)) "/tmp/server.json" "server") =
    Ret None /\
  result (start_singbox (Ret (graceful 101)) "/tmp/server.json" "server") =
    Ret (Some (graceful 101)) /\
  result (start_singbox (Raise FileNotFoundError) "/tmp/server.json" "server") =
    Raise FileNotFoundError.
Proof.
  split; [| split].
  - destruct (start_singbox_outcome (Ret (exited 101)) "/tmp/server.json"
                "server") as (_ & _ & _ & _ & Hnone & _).
    apply Hnone. exists (exited 101), 1. split; reflexivity.
  - destruct (start_singbox_outcome (Ret (graceful 101)) "/tmp/server.json"
                "server") as (_ & _ & _ & Hsome & _).
    apply Hsome. split; reflexivity.
  - destruct (start_singbox_outcome (Raise FileNotFoundError)
                "/tmp/server.json" "server") as (_ & _ & _ & _ & _ & Hraise & _).
    apply Hraise. reflexivity.
Defined.

(** The files of one turn, read back: the ports in the two configs are
    the turn's port pair. *)
Example files_of_a_fine_turn :
  map fst (files_written
             (trace (iteration float_of_digits sample_dir fine_turn "none"
                       start_state))) =
    ["/tmp/sb-bench-x/server-none.json"; "/tmp/sb-bench-x/client-none.json"] /\
  map (jat [Key "inbounds"; Idx 0; Key "listen_port"])
      (map snd (files_written
                  (trace (iteration float_of_digits sample_dir fine_turn "none"
                            start_state)))) =
    [Some (JInt 20000); Some (JInt 15000)].
Proof. split; vm_compute; reflexivity. Qed.
